(** * JoystickInput: device catalog, state formatting and streaming loops

    A shallow embedding of [JoystickInput/JoystickInput.cpp] (the native
    console program over XInput and DirectInput) and of
    [web/joystick_web.cpp] (the browser build over the HTML5 Gamepad API),
    followed by the properties of the catalog, the formatters, the two
    streaming loops, the command line and the browser surface.

    Conventions.  Machine integers ([int], [DWORD], [WORD], [HRESULT], ...)
    are [Z]; the code compares and prints them and never computes with them
    near their bounds, except where noted.  Narrow strings are [string],
    wide strings are lists of UTF-16 code units.  What the platform answers
    (XInput, DirectInput, the wait primitive, the browser) is an explicit
    argument of the function that asks; what the program does to the outside
    (lines on the two streams, calls whose result it discards) is the list of
    [Action]s it returns. *)

From Stdlib Require Import ZArith List String Ascii Bool Lia Setoid.
From Stdlib Require DecimalString HexadecimalString DecimalPos DecimalZ HexadecimalPos.
Import ListNotations.

Local Open Scope string_scope.
Local Open Scope list_scope.
Local Open Scope Z_scope.

(** ** Shared C++ library behaviour *)

(** [std::to_string(int)] and [operator<<] for integers in decimal. *)
Definition to_string (z : Z) : string :=
  DecimalString.NilZero.string_of_int (Z.to_int z).

(** [operator<<] for an unsigned integer under [std::hex]. *)
Definition to_hex (z : Z) : string :=
  HexadecimalString.NilZero.string_of_uint (N.to_hex_uint (Z.to_N z)).

Fixpoint replicate (n : nat) (c : ascii) : string :=
  match n with
  | O => EmptyString
  | S k => String c (replicate k c)
  end.

(** *** Output streams

    The part of a [std::ostream] the program relies on: the number base, the
    fill character and the field width, and the text written so far.  A
    formatted insertion pads its text on the left up to the field width,
    never truncates it, and resets the width to 0; base and fill stay until
    changed. *)
Inductive basefield := dec | hex.

Record ostream := mkStream {
  base : basefield;
  fill : ascii;
  width : nat;
  written : string
}.

(** The stream as the program finds it at start. *)
Definition fresh : ostream := mkStream dec " " 0 "".

Definition pad_left (w : nat) (c : ascii) (s : string) : string :=
  (replicate (w - String.length s) c ++ s)%string.

Definition insert (s : string) (os : ostream) : ostream :=
  mkStream (base os) (fill os) 0
           (written os ++ pad_left (width os) (fill os) s).

(** [os << "literal"] *)
Definition str (s : string) : ostream -> ostream := insert s.

(** [os << c] for a [char] *)
Definition chr (c : ascii) : ostream -> ostream := insert (String c EmptyString).

(** [os << n] for a signed integer of at most 32 bits *)
Definition int (z : Z) (os : ostream) : ostream :=
  insert match base os with
         | dec => to_string z
         | hex => to_hex (z mod 2 ^ 32)
         end os.

(** [os << n] for an unsigned integer *)
Definition uint (z : Z) (os : ostream) : ostream :=
  insert match base os with
         | dec => to_string z
         | hex => to_hex z
         end os.

Definition setw (w : nat) (os : ostream) : ostream :=
  mkStream (base os) (fill os) w (written os).

Definition setfill (c : ascii) (os : ostream) : ostream :=
  mkStream (base os) c (width os) (written os).

Definition std_hex (os : ostream) : ostream :=
  mkStream hex (fill os) (width os) (written os).

Definition std_dec (os : ostream) : ostream :=
  mkStream dec (fill os) (width os) (written os).

Declare Scope stream_scope.
Delimit Scope stream_scope with stream.
Notation "os << f" := (f os)
  (at level 50, left associativity, only parsing) : stream_scope.

(** The text a printing function writes to a stream in its initial format
    state.  The statements of the program that write to [std::cout] all find
    it in that state: the two state formatters restore it before they
    return, and no other statement uses a manipulator. *)
Definition written_by (print : ostream -> ostream) : string :=
  written (print fresh).

Arguments written_by : simpl never.

(** Wide characters and [std::wstring]. *)
Definition wchar_t := Z.
Definition wstring := list wchar_t.

(** A wide literal [L"..."] whose characters are all ASCII. *)
Definition L (s : string) : wstring :=
  map (fun a => Z.of_N (N_of_ascii a)) (list_ascii_of_string s).

Definition to_wstring (z : Z) : wstring := L (to_string z).

Fixpoint starts_with (needle hay : wstring) : bool :=
  match needle, hay with
  | [], _ => true
  | _ :: _, [] => false
  | n :: ns, h :: hs => (n =? h) && starts_with ns hs
  end.

(** [hay.find(needle)] searching from position [pos] of the original
    string; [None] is [std::wstring::npos]. *)
Fixpoint find_from (pos : nat) (hay needle : wstring) : option nat :=
  if starts_with needle hay then Some pos
  else match hay with
       | [] => None
       | _ :: hs => find_from (S pos) hs needle
       end.

Definition find (hay needle : wstring) : option nat := find_from 0 hay needle.

(** [pos != std::wstring::npos]. *)
Definition not_npos (pos : option nat) : bool :=
  match pos with Some _ => true | None => false end.

(** The line feed written as a backslash-n escape in the C++ literals. *)
Definition nl : string := String (ascii_of_nat 10) EmptyString.

(** [towlower] in the "C" locale (the program never calls [setlocale]):
    only the letters A..Z change. *)
Definition towlower_C (c : wchar_t) : wchar_t :=
  if (65 <=? c) && (c <=? 90) then c + 32 else c.

(** What the outside world sees of a run. *)
Inductive ApiCall :=
| SetConsoleCtrlHandler
| CoInitializeEx
| CoUninitialize
| Sleep (ms : Z)
| SetProperty_BufferSize (n : Z)
| Acquire
| Unacquire
| SetEventNotification_null
| CloseHandle
| Release_dev
| Release_di
| EnumDevices_GAMECTRL.

Inductive Action :=
| Cout (s : string)      (* text written to std::cout *)
| Cerr (s : string)      (* text written to std::cerr *)
| Api (c : ApiCall).     (* a platform call whose result is discarded *)

Definition is_Acquire (a : Action) : bool :=
  match a with Api Acquire => true | _ => false end.

(** The lines written to standard output, in order. *)
Definition stdout_of (tr : list Action) : list string :=
  flat_map (fun a => match a with Cout s => [s] | _ => [] end) tr.

Definition count_Acquire (tr : list Action) : nat :=
  List.length (filter is_Acquire tr).

(** ** The native program, [JoystickInput.cpp] *)

Module Native.

Definition DWORD := Z.
Definition HRESULT := Z.
Definition GUID := Z.
Definition HWND := Z.
Definition HANDLE := Z.

Definition GUID_NULL : GUID := 0.
Definition ERROR_SUCCESS : DWORD := 0.
Definition WAIT_OBJECT_0 : DWORD := 0.
Definition WAIT_TIMEOUT : DWORD := 258.
Definition WAIT_FAILED : DWORD := 0xFFFFFFFF.
Definition DI_OK : HRESULT := 0.
Definition DIERR_INPUTLOST : HRESULT := 0x8007001E - 2 ^ 32.
Definition DIERR_NOTACQUIRED : HRESULT := 0x8007000C - 2 ^ 32.
Definition XINPUT_GAMEPAD_DPAD_UP := 0x0001.
Definition XINPUT_GAMEPAD_DPAD_DOWN := 0x0002.
Definition XINPUT_GAMEPAD_DPAD_LEFT := 0x0004.
Definition XINPUT_GAMEPAD_DPAD_RIGHT := 0x0008.

Definition FAILED (hr : HRESULT) : bool := hr <? 0.
Definition SUCCEEDED (hr : HRESULT) : bool := 0 <=? hr.

Inductive DeviceKind := XInput | DirectInput.

Record DeviceInfo := mkDeviceInfo {
  index : Z;
  kind : DeviceKind;
  name : wstring;
  xinputUser : DWORD;
  diGuid : GUID
}.

Record XINPUT_GAMEPAD := mkGamepad {
  wButtons : Z;
  bLeftTrigger : Z;
  bRightTrigger : Z;
  sThumbLX : Z;
  sThumbLY : Z;
  sThumbRX : Z;
  sThumbRY : Z
}.

Record XINPUT_STATE := mkXState {
  dwPacketNumber : DWORD;
  Gamepad : XINPUT_GAMEPAD
}.

(** The members of [DIJOYSTATE2] the program reads.  The three arrays have
    2, 4 and 128 elements; [nth] gives 0 outside a shorter list, which is a
    zero-initialised tail. *)
Record DIJOYSTATE2 := mkJoyState {
  lX : Z; lY : Z; lZ : Z;
  lRx : Z; lRy : Z; lRz : Z;
  rglSlider : list Z;
  rgdwPOV : list Z;
  rgbButtons : list Z
}.

(** [tszProductName] is tested against null by the code; [None] is the
    null pointer. *)
Record DIDEVICEINSTANCEW := mkInstance {
  guidInstance : GUID;
  tszProductName : option wstring
}.

(** What one enumeration finds: the answer of [XInputGetState] for each user
    index, the result of [DirectInput8Create], and the instances
    [EnumDevices] hands to the callback, in order. *)
Record Hardware := mkHardware {
  XInputGetState : DWORD -> DWORD * XINPUT_STATE;
  DirectInput8Create : HRESULT;
  EnumDevices : list DIDEVICEINSTANCEW
}.

Definition IsXInputConnected (hw : Hardware) (userIdx : DWORD) : bool :=
  let res := fst (XInputGetState hw userIdx) in
  res =? ERROR_SUCCESS.

Definition CTRL_C_EVENT : DWORD := 0.
Definition CTRL_BREAK_EVENT : DWORD := 1.
Definition CTRL_CLOSE_EVENT : DWORD := 2.

(** The console control handler: its [BOOL] result and the value
    [g_Running] holds afterwards. *)
Definition ConsoleCtrlHandler (ctrlType : DWORD) (g_Running : bool) : bool * bool :=
  if (ctrlType =? CTRL_C_EVENT) || (ctrlType =? CTRL_BREAK_EVENT)
     || (ctrlType =? CTRL_CLOSE_EVENT)
  then (true, false)
  else (false, g_Running).

(** Two library routines are left open: the wide-character case folding
    [towlower], whose result depends on the C library's locale tables, and
    the UTF-16 to UTF-8 conversion that [WideCharToMultiByte] performs for
    [WToUtf8]. *)
Section Platform.

Variable towlower : wchar_t -> wchar_t.
Variable WideCharToMultiByte_UTF8 : wstring -> string.

Definition WToUtf8 (ws : wstring) : string :=
  match ws with
  | [] => EmptyString
  | _ => WideCharToMultiByte_UTF8 ws
  end.

Definition IsLikelyXInputDuplicate (inst : DIDEVICEINSTANCEW) : bool :=
  let name := match tszProductName inst with Some s => s | None => L "" end in
  let lname := map towlower name in
  if not_npos (find lname (L "xinput")) then true
  else if not_npos (find lname (L "(xbox")) then true
  (* Many DI proxies for XInput include "IG_" *)
  else if not_npos (find lname (L "ig_")) then true
  else false.

(** The enumeration callback: [out] is [*ctx->out], which [EnumerateDevices]
    always supplies.  [index] is left unset here; the 0 stands for the
    indeterminate value that the caller overwrites. *)
Definition EnumDIEnumDevicesCallback
    (out : list DeviceInfo) (pdidInstance : DIDEVICEINSTANCEW) : list DeviceInfo :=
  if IsLikelyXInputDuplicate pdidInstance then out
  else
    let dev := {| index := 0;
                  kind := DirectInput;
                  name := match tszProductName pdidInstance with
                          | Some s => s
                          | None => L "DirectInput Device"
                          end;
                  xinputUser := 0;
                  diGuid := guidInstance pdidInstance |} in
    out ++ [dev].

Definition probe_xinput_user (hw : Hardware)
    (devices : list DeviceInfo) (i : DWORD) : list DeviceInfo :=
  if IsXInputConnected hw i then
    let dev := {| index := 0;
                  kind := XInput;
                  name := L "XInput Controller " ++ to_wstring i;
                  xinputUser := i;
                  diGuid := GUID_NULL |} in
    devices ++ [dev]
  else devices.

Definition set_index (i : Z) (d : DeviceInfo) : DeviceInfo :=
  {| index := i; kind := kind d; name := name d;
     xinputUser := xinputUser d; diGuid := diGuid d |}.

(** [devices[i].index = i] for an [i] below the size. *)
Fixpoint assign_at (i : nat) (v : Z) (devices : list DeviceInfo) : list DeviceInfo :=
  match devices, i with
  | [], _ => []
  | d :: ds, O => set_index v d :: ds
  | d :: ds, S k => d :: assign_at k v ds
  end.

Definition EnumerateDevices (hw : Hardware) : list DeviceInfo :=
  (* 1) XInput users 0..3 *)
  let devices := fold_left (probe_xinput_user hw) [0; 1; 2; 3] [] in
  (* 2) DirectInput devices *)
  let devices :=
    if SUCCEEDED (DirectInput8Create hw)
    then fold_left EnumDIEnumDevicesCallback (EnumDevices hw) devices
    else devices in
  (* Assign stable indices *)
  fold_left (fun ds i => assign_at i (Z.of_nat i) ds)
            (seq 0 (List.length devices)) devices.

(** The calls [EnumerateDevices] makes without looking at their result:
    [di->EnumDevices] and [di->Release], made when [DirectInput8Create]
    succeeded. *)
Definition EnumerateDevices_calls (hw : Hardware) : list Action :=
  if SUCCEEDED (DirectInput8Create hw)
  then [Api EnumDevices_GAMECTRL; Api Release_di]
  else [].

(** *** State formatting *)

Definition PrintXInputState (s : XINPUT_STATE) (cout : ostream) : ostream :=
  let g := Gamepad s in
  (cout
   << str "LX=" << setw 6 << int (sThumbLX g) << str "  "
   << str "LY=" << setw 6 << int (sThumbLY g) << str "  "
   << str "RX=" << setw 6 << int (sThumbRX g) << str "  "
   << str "RY=" << setw 6 << int (sThumbRY g) << str "  "
   << str "LT=" << setw 3 << int (bLeftTrigger g) << str "  "
   << str "RT=" << setw 3 << int (bRightTrigger g) << str "  "
   << str "Buttons=0x" << std_hex << setw 4 << setfill "0" << uint (wButtons g)
   << std_dec << setfill " " << str "  "
   << str "DPad(U/D/L/R)="
   << int (if Z.land (wButtons g) XINPUT_GAMEPAD_DPAD_UP =? 0 then 0 else 1)
   << str "/"
   << int (if Z.land (wButtons g) XINPUT_GAMEPAD_DPAD_DOWN =? 0 then 0 else 1)
   << str "/"
   << int (if Z.land (wButtons g) XINPUT_GAMEPAD_DPAD_LEFT =? 0 then 0 else 1)
   << str "/"
   << int (if Z.land (wButtons g) XINPUT_GAMEPAD_DPAD_RIGHT =? 0 then 0 else 1)
   << str nl)%stream.

Definition print_pov (js : DIJOYSTATE2) (cout : ostream) (i : nat) : ostream :=
  let pov := nth i (rgdwPOV js) 0 in
  if pov =? 0xFFFFFFFF then (cout << str "---- ")%stream
  else (cout << setw 4 << uint pov << str " ")%stream.

Definition print_button (js : DIJOYSTATE2) (cout : ostream) (i : nat) : ostream :=
  (cout << chr (if Z.land (nth i (rgbButtons js) 0) 0x80 =? 0 then "0" else "1"))%stream.

Definition PrintDIState (js : DIJOYSTATE2) (cout : ostream) : ostream :=
  let cout :=
    (cout
     << str "AXES: "
     << str "lX=" << setw 6 << int (lX js) << str " "
     << str "lY=" << setw 6 << int (lY js) << str " "
     << str "lZ=" << setw 6 << int (lZ js) << str " "
     << str "lRx=" << setw 6 << int (lRx js) << str " "
     << str "lRy=" << setw 6 << int (lRy js) << str " "
     << str "lRz=" << setw 6 << int (lRz js) << str " "
     << str "S0=" << setw 6 << int (nth 0 (rglSlider js) 0) << str " "
     << str "S1=" << setw 6 << int (nth 1 (rglSlider js) 0) << str " | ")%stream in
  let cout := (cout << str "POV: ")%stream in
  let cout := fold_left (print_pov js) (seq 0 4) cout in
  let cout := (cout << str "| BTN: ")%stream in
  (* print first 32 buttons for brevity *)
  let cout := fold_left (print_button js) (seq 0 32) cout in
  (cout << str nl)%stream.

(** *** Streaming loops

    The loops read the process-wide flag [g_Running] once per iteration and
    ask the platform for input.  A run is given the successive values
    [g_Running.load()] returns (the console handler only ever stores
    [false]) and the successive answers of each platform call.  The result
    code is [None] when these lists end while the loop is still running:
    the run is then a prefix of a longer one. *)

(** The [while] loop of [RunXInputReader], entered with the local
    [lastPacket] at the given value.  The local [prev] is never read and is
    left out. *)
Fixpoint XInputLoop (userIndex lastPacket : DWORD) (running : list bool)
    (polls : list (DWORD -> DWORD * XINPUT_STATE)) : list Action * option Z :=
  match running with
  | [] => ([], None)
  | false :: _ => ([], Some 0)
  | true :: running' =>
      match polls with
      | [] => ([], None)
      | poll :: polls' =>
          let (res, st) := poll userIndex in
          if negb (res =? ERROR_SUCCESS) then
            ([Cout ("Controller disconnected." ++ nl)], Some 1)
          else
            let changed := negb (dwPacketNumber st =? lastPacket) in
            let lastPacket' := if changed then dwPacketNumber st else lastPacket in
            let printed := if changed then [Cout (written_by (PrintXInputState st))] else [] in
            let (tr, rc) := XInputLoop userIndex lastPacket' running' polls' in
            (printed ++ Api (Sleep 2) :: tr, rc)
      end
  end.

Definition RunXInputReader (userIndex : DWORD) (running : list bool)
    (polls : list (DWORD -> DWORD * XINPUT_STATE)) : list Action * option Z :=
  let (tr, rc) := XInputLoop userIndex 0 running polls in
  (Cout ("Reading XInput controller " ++ to_string userIndex
         ++ " (Ctrl+C to stop)..." ++ nl) :: tr, rc).

(** The answers of the calls [RunDirectInputReader] makes once, before its
    loop. *)
Record DISetup := mkDISetup {
  r_DirectInput8Create : HRESULT;
  r_CreateDevice : HRESULT;
  r_CreateHiddenWindow : HWND;
  r_SetDataFormat : HRESULT;
  r_SetCooperativeLevel : HRESULT;
  r_CreateEventW : HANDLE;
  r_SetEventNotification : HRESULT;
  r_Acquire : HRESULT
}.

(** The successive answers of the calls made inside its loop:
    [WaitForSingleObject], [GetDeviceData] (result and [dwItems]) and
    [GetDeviceState]. *)
Record DIFeed := mkDIFeed {
  waits : list DWORD;
  data : list (HRESULT * DWORD);
  states : list (HRESULT * DIJOYSTATE2)
}.

Definition state_lost (hr : HRESULT) : bool :=
  (hr =? DIERR_INPUTLOST) || (hr =? DIERR_NOTACQUIRED).

(** The inner [while (true)] over [GetDeviceData]: the actions it performs
    and the answers left when it breaks, [None] when the answers end
    first. *)
Fixpoint DrainBuffered (data : list (HRESULT * DWORD))
    : list Action * option (list (HRESULT * DWORD)) :=
  match data with
  | [] => ([], None)
  | (hr, dwItems) :: rest =>
      if state_lost hr then
        let (tr, left) := DrainBuffered rest in
        (Api Acquire :: tr, left)                       (* continue *)
      else if FAILED hr || (dwItems =? 0) then ([], Some rest)   (* break *)
      else DrainBuffered rest
  end.

Inductive Flow :=
| Continue     (* on to the next test of g_Running *)
| Break        (* the loop is left *)
| Pending.     (* the platform's answers ended inside the iteration *)

(** One pass through the body of the main event loop. *)
Definition DIIteration (q : DIFeed) : list Action * Flow * DIFeed :=
  match waits q with
  | [] => ([], Pending, q)
  | wait :: waits' =>
      if wait =? WAIT_OBJECT_0 then
        match DrainBuffered (data q) with
        | (tr, None) => (tr, Pending, mkDIFeed waits' [] (states q))
        | (tr, Some data') =>
            match states q with
            | [] => (tr, Pending, mkDIFeed waits' data' [])
            | (hr, js) :: states' =>
                let q' := mkDIFeed waits' data' states' in
                if state_lost hr then (tr ++ [Api Acquire], Continue, q')
                else if SUCCEEDED hr then (tr ++ [Cout (written_by (PrintDIState js))], Continue, q')
                else (tr, Continue, q')
            end
        end
      else if wait =? WAIT_TIMEOUT then
        (* Periodic check to handle disconnections *)
        match states q with
        | [] => ([], Pending, mkDIFeed waits' (data q) [])
        | (hr, js) :: states' =>
            let q' := mkDIFeed waits' (data q) states' in
            if state_lost hr then ([Api Acquire], Continue, q')
            else if FAILED hr then
              ([Cout ("Device disconnected or error." ++ nl)], Break, q')
            else ([], Continue, q')
        end
      else
        (* WAIT_FAILED *)
        ([Cerr ("WaitForSingleObject failed." ++ nl)], Break,
         mkDIFeed waits' (data q) (states q))
  end.

(** The main event loop of [RunDirectInputReader]; the boolean tells
    whether the loop was left (by the stop flag or by a [break]) or is still
    running when the answers end. *)
Fixpoint DILoop (running : list bool) (q : DIFeed) : list Action * bool :=
  match running with
  | [] => ([], false)
  | false :: _ => ([], true)
  | true :: running' =>
      match DIIteration q with
      | (tr, Continue, q') =>
          let (tr', left) := DILoop running' q' in (tr ++ tr', left)
      | (tr, Break, _) => (tr, true)
      | (tr, Pending, _) => (tr, false)
      end
  end.

(** [g_HiddenWnd] is passed in as the caller left it; the value this
    function may store into it is not read again by the program. *)
Definition RunDirectInputReader (guidInstance : GUID) (g_HiddenWnd : HWND)
    (s : DISetup) (running : list bool) (q : DIFeed) : list Action * option Z :=
  let hello := Cout ("Reading DirectInput device (Ctrl+C to stop)..." ++ nl) in
  if FAILED (r_DirectInput8Create s) then
    ([hello; Cerr ("DirectInput8Create failed." ++ nl)], Some 2)
  else if FAILED (r_CreateDevice s) then
    ([hello; Cerr ("CreateDevice failed." ++ nl); Api Release_di], Some 3)
  else if (g_HiddenWnd =? 0) && (r_CreateHiddenWindow s =? 0) then
    ([hello; Cerr ("Failed to create hidden window for DirectInput." ++ nl);
      Api Release_dev; Api Release_di], Some 4)
  else if FAILED (r_SetDataFormat s) then
    ([hello; Cerr ("SetDataFormat failed." ++ nl);
      Api Release_dev; Api Release_di], Some 5)
  else if FAILED (r_SetCooperativeLevel s) then
    ([hello; Cerr ("SetCooperativeLevel failed." ++ nl);
      Api Release_dev; Api Release_di], Some 6)
  else if r_CreateEventW s =? 0 then
    ([hello; Api (SetProperty_BufferSize 64); Cerr ("CreateEvent failed." ++ nl);
      Api Release_dev; Api Release_di], Some 7)
  else if FAILED (r_SetEventNotification s) then
    ([hello; Api (SetProperty_BufferSize 64);
      Cerr ("SetEventNotification failed." ++ nl);
      Api CloseHandle; Api Release_dev; Api Release_di], Some 8)
  else if FAILED (r_Acquire s) then
    ([hello; Api (SetProperty_BufferSize 64); Cerr ("Acquire failed." ++ nl);
      Api SetEventNotification_null; Api CloseHandle;
      Api Release_dev; Api Release_di], Some 9)
  else
    (* Main event loop: wait for device event, then read state *)
    let (tr, left) := DILoop running q in
    if left then
      (hello :: Api (SetProperty_BufferSize 64) :: tr
       ++ [Api Unacquire; Api SetEventNotification_null; Api CloseHandle;
           Api Release_dev; Api Release_di], Some 0)
    else (hello :: Api (SetProperty_BufferSize 64) :: tr, None).

(** *** Command line *)

Definition kind_label (k : DeviceKind) : string :=
  match k with XInput => "XInput   " | DirectInput => "DirectInp" end.

Definition print_device (d : DeviceInfo) : Action :=
  Cout ("  [" ++ to_string (index d) ++ "] " ++ kind_label (kind d)
        ++ "  " ++ WToUtf8 (name d)
        ++ match kind d with
           | XInput => " (user=" ++ to_string (xinputUser d) ++ ")"
           | DirectInput => ""
           end
        ++ nl).

Definition PrintUsageAndList (hw : Hardware) : list Action :=
  Cout ("Usage: JoystickInput <deviceIndex>" ++ nl)
  :: Cout ("No argument: lists available devices with their integer index."
           ++ nl ++ nl)
  :: EnumerateDevices_calls hw
  ++ match EnumerateDevices hw with
     | [] => [Cout ("No game controllers detected." ++ nl)]
     | devices => Cout ("Available devices:" ++ nl) :: map print_device devices
     end.

Definition isspace (c : ascii) : bool :=
  let n := nat_of_ascii c in
  (Nat.eqb n 32 || (Nat.leb 9 n && Nat.leb n 13))%bool.

Fixpoint skip_space (s : string) : string :=
  match s with
  | String c r => if isspace c then skip_space r else s
  | EmptyString => s
  end.

Definition digit_value (c : ascii) : option Z :=
  let n := nat_of_ascii c in
  if (Nat.leb 48 n && Nat.leb n 57)%bool then Some (Z.of_nat n - 48) else None.

(** The value of the longest prefix of decimal digits, [None] when there is
    no digit at the front. *)
Fixpoint read_digits (acc : option Z) (s : string) : option Z :=
  match s with
  | EmptyString => acc
  | String c r =>
      match digit_value c with
      | None => acc
      | Some d =>
          read_digits (Some (10 * match acc with Some a => a | None => 0 end + d)) r
      end
  end.

Definition INT_MIN := - 2 ^ 31.
Definition INT_MAX := 2 ^ 31 - 1.

(** [std::stoi(str)] in base 10: white space, an optional sign and the
    longest run of digits; what follows the digits is ignored.  [None]
    stands for both exceptions it throws, [std::invalid_argument] (no digit)
    and [std::out_of_range] (the value does not fit an [int]). *)
Definition stoi (str : string) : option Z :=
  let s := skip_space str in
  let (negative, s) :=
    match s with
    | String "-" r => (true, r)
    | String "+" r => (false, r)
    | _ => (false, s)
    end in
  match read_digits None s with
  | None => None
  | Some v =>
      let v := if negative then - v else v in
      if (INT_MIN <=? v) && (v <=? INT_MAX) then Some v else None
  end.

(** Everything the platform answers during one run of [main]. *)
Record World := mkWorld {
  w_CreateHiddenWindow : HWND;      (* the call in main *)
  w_enumerate : Hardware;           (* seen by main's own EnumerateDevices *)
  w_listing : Hardware;             (* seen by PrintUsageAndList *)
  w_running : list bool;
  w_polls : list (DWORD -> DWORD * XINPUT_STATE);
  w_setup : DISetup;
  w_feed : DIFeed
}.

Definition default_device : DeviceInfo :=
  mkDeviceInfo 0 XInput [] 0 GUID_NULL.

(** [argv] holds the [argc] arguments, the program name first. *)
Definition main (argv : list string) (w : World) : list Action * option Z :=
  let g_HiddenWnd := w_CreateHiddenWindow w in
  match argv with
  | [] | [_] =>
      (Api SetConsoleCtrlHandler :: PrintUsageAndList (w_listing w), Some 0)
  | _ :: arg1 :: _ =>
      match stoi arg1 with
      | None =>
          (Api SetConsoleCtrlHandler
           :: Cerr ("Invalid argument. Must be an integer device index." ++ nl ++ nl)
           :: PrintUsageAndList (w_listing w), Some 1)
      | Some selectedIndex =>
          let devices := EnumerateDevices (w_enumerate w) in
          let enumerating := EnumerateDevices_calls (w_enumerate w) in
          if (selectedIndex <? 0)
             || (Z.of_nat (List.length devices) <=? selectedIndex) then
            (Api SetConsoleCtrlHandler
             :: enumerating
             ++ Cerr ("Device index out of range." ++ nl ++ nl)
             :: PrintUsageAndList (w_listing w), Some 1)
          else
            let sel := nth (Z.to_nat selectedIndex) devices default_device in
            let selected :=
              Cout ("Selected [" ++ to_string (index sel) ++ "] "
                    ++ kind_label (kind sel) ++ "  " ++ WToUtf8 (name sel) ++ nl) in
            match kind sel with
            | XInput =>
                let (tr, rc) :=
                  RunXInputReader (xinputUser sel) (w_running w) (w_polls w) in
                (Api SetConsoleCtrlHandler :: enumerating ++ selected :: tr, rc)
            | DirectInput =>
                (* Initialize COM for safety with some DI providers *)
                let (tr, rc) :=
                  RunDirectInputReader (diGuid sel) g_HiddenWnd
                                       (w_setup w) (w_running w) (w_feed w) in
                match rc with
                | Some _ =>
                    (Api SetConsoleCtrlHandler
                     :: enumerating
                     ++ selected :: Api CoInitializeEx
                     :: tr ++ [Api CoUninitialize], rc)
                | None =>
                    (Api SetConsoleCtrlHandler
                     :: enumerating
                     ++ selected :: Api CoInitializeEx :: tr, None)
                end
            end
      end
  end.

End Platform.

End Native.

(** ** The browser build, [joystick_web.cpp] *)

Module Web.

Definition EMSCRIPTEN_RESULT_SUCCESS : Z := 0.

(** Axis and analog button values are [double]s.  The only computation the
    program performs on them is the rendering of an axis,
    [std::to_string(static_cast<int>(x * 1000) / 1000.0)], so the type and
    that rendering are left open. *)
Section Doubles.

Context {double : Type}.
Variable axis_to_string : double -> string.

Record GamepadInfo := mkGamepadInfo {
  gi_index : Z;
  gi_id : string;
  gi_mapping : string;
  gi_connected : bool;
  gi_numButtons : Z;
  gi_numAxes : Z
}.

(** [timestamp] is left uninitialised when the status read fails. *)
Record GamepadState := mkGamepadState {
  gs_index : Z;
  axes : list double;
  buttons : list bool;
  buttonValues : list double;
  timestamp : option double
}.

(** The members of [EmscriptenGamepadEvent] the program reads; the three
    arrays are indexed from 0. *)
Record EmscriptenGamepadEvent := mkEvent {
  ev_timestamp : double;
  ev_numAxes : Z;
  ev_numButtons : Z;
  ev_axis : nat -> double;
  ev_analogButton : nat -> double;
  ev_digitalButton : nat -> Z;
  ev_connected : bool;
  ev_id : string;
  ev_mapping : string
}.

(** What the browser reports at one sampling: the value returned by
    [emscripten_sample_gamepad_data()] and the answer of
    [emscripten_get_gamepad_status] for each index. *)
Record Browser := mkBrowser {
  emscripten_sample_gamepad_data : Z;
  emscripten_get_gamepad_status : Z -> Z * EmscriptenGamepadEvent
}.

(** The three globals. *)
Record Globals := mkGlobals {
  g_gamepads : list GamepadInfo;
  g_streaming : bool;
  g_selectedGamepad : Z
}.

Definition initial : Globals := mkGlobals [] false (-1).

Fixpoint format_axes (i : nat) (axes : list double) : string :=
  match axes with
  | [] => EmptyString
  | a :: rest =>
      ("A" ++ to_string (Z.of_nat i) ++ "=" ++ axis_to_string a ++ " "
       ++ format_axes (S i) rest)%string
  end.

Fixpoint format_buttons (buttons : list bool) : string :=
  match buttons with
  | [] => EmptyString
  | b :: rest => ((if b then "1" else "0") ++ format_buttons rest)%string
  end.

Definition FormatGamepadState (state : GamepadState) : string :=
  ("Gamepad " ++ to_string (gs_index state) ++ ": "
   ++ "AXES: " ++ format_axes 0 (axes state)
   ++ "| BUTTONS: " ++ format_buttons (buttons state))%string.

Definition probe_gamepad (b : Browser) (gamepads : list GamepadInfo) (i : nat)
    : list GamepadInfo :=
  let (result, gamepadState) := emscripten_get_gamepad_status b (Z.of_nat i) in
  if (result =? EMSCRIPTEN_RESULT_SUCCESS) && ev_connected gamepadState then
    gamepads ++ [ {| gi_index := Z.of_nat i;
                     gi_id := ev_id gamepadState;
                     gi_mapping := ev_mapping gamepadState;
                     gi_connected := ev_connected gamepadState;
                     gi_numButtons := ev_numButtons gamepadState;
                     gi_numAxes := ev_numAxes gamepadState |} ]
  else gamepads.

(** The new value of [g_gamepads]. *)
Definition UpdateGamepadList (b : Browser) : list GamepadInfo :=
  let numGamepads := emscripten_sample_gamepad_data b in
  fold_left (probe_gamepad b) (seq 0 (Z.to_nat numGamepads)) [].

Definition GetGamepadState (b : Browser) (index : Z) : GamepadState :=
  let (result, gamepadEvent) := emscripten_get_gamepad_status b index in
  if (result =? EMSCRIPTEN_RESULT_SUCCESS) && ev_connected gamepadEvent then
    {| gs_index := index;
       axes := map (ev_axis gamepadEvent)
                   (seq 0 (Z.to_nat (ev_numAxes gamepadEvent)));
       buttons := map (fun i => negb (ev_digitalButton gamepadEvent i =? 0))
                      (seq 0 (Z.to_nat (ev_numButtons gamepadEvent)));
       buttonValues := map (ev_analogButton gamepadEvent)
                           (seq 0 (Z.to_nat (ev_numButtons gamepadEvent)));
       timestamp := Some (ev_timestamp gamepadEvent) |}
  else
    {| gs_index := index; axes := []; buttons := []; buttonValues := [];
       timestamp := None |}.

(** Each exported function returns its C result (when it has one), the
    globals it leaves and what it wrote. *)

Definition print_gamepad (gamepad : GamepadInfo) : Action :=
  Cout ("  [" ++ to_string (gi_index gamepad) ++ "] "
        ++ gi_id gamepad ++ " (" ++ gi_mapping gamepad ++ ") "
        ++ "Buttons: " ++ to_string (gi_numButtons gamepad) ++ " "
        ++ "Axes: " ++ to_string (gi_numAxes gamepad) ++ nl).

Definition ListGamepads (b : Browser) (g : Globals) : Z * Globals * list Action :=
  let gamepads := UpdateGamepadList b in
  (Z.of_nat (List.length gamepads),
   mkGlobals gamepads (g_streaming g) (g_selectedGamepad g),
   Cout ("Available gamepads:" ++ nl) :: map print_gamepad gamepads
   ++ match gamepads with
      | [] => [Cout ("No gamepads detected. Make sure a gamepad is connected and press any button on it." ++ nl)]
      | _ => []
      end).

Definition default_gamepad : GamepadInfo := mkGamepadInfo 0 "" "" false 0 0.

Definition StartStreaming (b : Browser) (gamepadIndex : Z) (g : Globals)
    : Z * Globals * list Action :=
  let gamepads := UpdateGamepadList b in
  if (gamepadIndex <? 0) || (Z.of_nat (List.length gamepads) <=? gamepadIndex) then
    (0, mkGlobals gamepads (g_streaming g) (g_selectedGamepad g),
     [Cout ("Invalid gamepad index: " ++ to_string gamepadIndex ++ nl)])
  else
    (1, mkGlobals gamepads true gamepadIndex,
     [Cout ("Starting to stream input from gamepad " ++ to_string gamepadIndex
            ++ " (" ++ gi_id (nth (Z.to_nat gamepadIndex) gamepads default_gamepad)
            ++ ")" ++ nl);
      Cout ("Press ESC or call StopStreaming() to stop." ++ nl)]).

Definition StopStreaming (g : Globals) : Globals * list Action :=
  (mkGlobals (g_gamepads g) false (-1),
   [Cout ("Stopped streaming gamepad input." ++ nl)]).

Definition UpdateGamepadState (b : Browser) (g : Globals) : Globals * list Action :=
  if negb (g_streaming g) || (g_selectedGamepad g <? 0) then (g, [])
  else
    let state := GetGamepadState b (g_selectedGamepad g) in
    (* Only print if we have valid data *)
    match axes state, buttons state with
    | [], [] => (g, [])
    | _, _ => (g, [Cout (FormatGamepadState state ++ nl)])
    end.

Definition IsStreaming (g : Globals) : Z := if g_streaming g then 1 else 0.

Definition GetSelectedGamepad (g : Globals) : Z := g_selectedGamepad g.

(** A call the hosting page makes, with what the browser reports during
    it. *)
Inductive Call :=
| CallListGamepads (b : Browser)
| CallStartStreaming (b : Browser) (gamepadIndex : Z)
| CallStopStreaming
| CallUpdateGamepadState (b : Browser)
| CallIsStreaming
| CallGetSelectedGamepad.

Definition call (g : Globals) (c : Call) : Globals :=
  match c with
  | CallListGamepads b => snd (fst (ListGamepads b g))
  | CallStartStreaming b i => snd (fst (StartStreaming b i g))
  | CallStopStreaming => fst (StopStreaming g)
  | CallUpdateGamepadState b => fst (UpdateGamepadState b g)
  | CallIsStreaming => g
  | CallGetSelectedGamepad => g
  end.

(** The globals after a sequence of calls, from program start. *)
Definition after (calls : list Call) : Globals := fold_left call calls initial.

End Doubles.

End Web.

(** * Vocabulary of the statements *)

(** [needle] occurs in [hay] as a contiguous run. *)
Definition contains (hay needle : wstring) : Prop :=
  exists pre post, hay = pre ++ needle ++ post.

(** Every code unit is below 128. *)
Definition all_ascii (s : wstring) : bool :=
  forallb (fun c => (0 <=? c) && (c <? 128)) s.

(** The name the filter looks at, case-folded. *)
Definition folded_name (towlower : wchar_t -> wchar_t)
    (inst : Native.DIDEVICEINSTANCEW) : wstring :=
  map towlower match Native.tszProductName inst with Some s => s | None => [] end.

(** Sequential numbering from [a], the effect of the index loop. *)
Fixpoint number_from (a : nat) (devices : list Native.DeviceInfo)
    : list Native.DeviceInfo :=
  match devices with
  | [] => []
  | d :: ds => Native.set_index (Z.of_nat a) d :: number_from (S a) ds
  end.

(** The XInput user indices the enumeration probes. *)
Definition xinput_users : list Native.DWORD := [0; 1; 2; 3].

(** The DirectInput instances an enumeration gets to see: none when
    [DirectInput8Create] fails. *)
Definition enumerated (hw : Native.Hardware) : list Native.DIDEVICEINSTANCEW :=
  if Native.SUCCEEDED (Native.DirectInput8Create hw)
  then Native.EnumDevices hw else [].

(** The messages the program writes. *)
Definition disconnect_notice : Action := Cout ("Controller disconnected." ++ nl).

(** What one successful read adds to the output: the formatted line when
    the packet number differs from the remembered one, nothing otherwise. *)
Definition line_if_changed (lastPacket : Native.DWORD) (st : Native.XINPUT_STATE)
    : list Action :=
  if Native.dwPacketNumber st =? lastPacket then []
  else [Cout (written_by (Native.PrintXInputState st))].

(** The stop flag reads [false] at test [n] of the loop, after [n] passes
    in which it read [true] and the read succeeded. *)
Definition stopped_at (user : Native.DWORD) (running : list bool)
    (polls : list (Native.DWORD -> Native.DWORD * Native.XINPUT_STATE)) (n : nat) : Prop :=
  nth_error running n = Some false
  /\ forall k, (k < n)%nat ->
       nth_error running k = Some true
       /\ exists poll, nth_error polls k = Some poll
                       /\ fst (poll user) = Native.ERROR_SUCCESS.

(** Read [n] reports the slot disconnected, after [n] passes in which the
    flag read [true] and the read succeeded, the flag reading [true] once
    more. *)
Definition disconnected_at (user : Native.DWORD) (running : list bool)
    (polls : list (Native.DWORD -> Native.DWORD * Native.XINPUT_STATE)) (n : nat) : Prop :=
  nth_error running n = Some true
  /\ (exists poll, nth_error polls n = Some poll
                   /\ fst (poll user) <> Native.ERROR_SUCCESS)
  /\ forall k, (k < n)%nat ->
       nth_error running k = Some true
       /\ exists poll, nth_error polls k = Some poll
                       /\ fst (poll user) = Native.ERROR_SUCCESS.

(** How many of the given answers carry a state-lost status. *)
Definition lost_count {A : Type} (answers : list (Native.HRESULT * A)) : nat :=
  List.length (filter (fun a => Native.state_lost (fst a)) answers).

Definition reading_directinput : Action :=
  Cout ("Reading DirectInput device (Ctrl+C to stop)..." ++ nl).

Definition release_all : list Action :=
  [Api Unacquire; Api SetEventNotification_null; Api CloseHandle;
   Api Release_dev; Api Release_di].

Definition usage_lines : list Action :=
  [Cout ("Usage: JoystickInput <deviceIndex>" ++ nl);
   Cout ("No argument: lists available devices with their integer index."
         ++ nl ++ nl)].

Definition invalid_argument : Action :=
  Cerr ("Invalid argument. Must be an integer device index." ++ nl ++ nl).

Definition out_of_range : Action :=
  Cerr ("Device index out of range." ++ nl ++ nl).

(** The stream loop [main] enters for the catalog entry [sel]. *)
Definition stream_loop (sel : Native.DeviceInfo) (w : Native.World)
    : list Action * option Z :=
  match Native.kind sel with
  | Native.XInput =>
      Native.RunXInputReader (Native.xinputUser sel)
                             (Native.w_running w) (Native.w_polls w)
  | Native.DirectInput =>
      Native.RunDirectInputReader (Native.diGuid sel) (Native.w_CreateHiddenWindow w)
                                  (Native.w_setup w) (Native.w_running w)
                                  (Native.w_feed w)
  end.

(** The first character of a text, when it has one. *)
Definition first_char (s : string) : option ascii :=
  match s with
  | String c _ => Some c
  | EmptyString => None
  end.

(** The stream with its format state kept and its text emptied. *)
Definition restart (os : ostream) : ostream :=
  mkStream (base os) (fill os) (width os) EmptyString.

(** [f] only appends: the text it adds and the format state it leaves are
    determined by the format state it finds, not by the text written
    before. *)
Definition appends (f : ostream -> ostream) : Prop :=
  forall os,
    f os = mkStream (base (f (restart os))) (fill (f (restart os)))
                    (width (f (restart os)))
                    (written os ++ written (f (restart os))).

(** The format state is the initial one. *)
Definition initial_format (os : ostream) : Prop :=
  base os = dec /\ fill os = " "%char /\ width os = 0%nat.

(** A call of one of the two native formatters on [std::cout]. *)
Inductive PrintCall :=
| CallPrintXInputState (s : Native.XINPUT_STATE)
| CallPrintDIState (js : Native.DIJOYSTATE2).

Definition printer (c : PrintCall) : ostream -> ostream :=
  match c with
  | CallPrintXInputState s => Native.PrintXInputState s
  | CallPrintDIState js => Native.PrintDIState js
  end.

(** [std::cout] after a sequence of formatter calls. *)
Definition print_all (calls : list PrintCall) (cout : ostream) : ostream :=
  fold_left (fun os c => printer c os) calls cout.

Definition join (texts : list string) : string :=
  fold_right append EmptyString texts.

(** The invariant of the three globals. *)
Definition streaming_iff_selected (g : Web.Globals) : Prop :=
  Web.g_streaming g = true <-> 0 <= Web.g_selectedGamepad g.

(** The entry [EnumerateDevices] appends for a connected XInput user, and
    the one the callback appends for a DirectInput instance, before the
    indices are assigned. *)
Definition xinput_entry (i : Native.DWORD) : Native.DeviceInfo :=
  Native.mkDeviceInfo 0 Native.XInput (L "XInput Controller " ++ to_wstring i)
                      i Native.GUID_NULL.

Definition directinput_entry (inst : Native.DIDEVICEINSTANCEW) : Native.DeviceInfo :=
  Native.mkDeviceInfo 0 Native.DirectInput
                      match Native.tszProductName inst with
                      | Some s => s
                      | None => L "DirectInput Device"
                      end
                      0 (Native.guidInstance inst).

(** What happens to [g_Running] and to the loop that reads it: the console
    delivers a control event, or the loop loads the flag. *)
Inductive FlagEvent :=
| Control (ctrlType : Native.DWORD)
| Load.

(** The values the loads return, the flag starting at [g]. *)
Fixpoint loads (g : bool) (events : list FlagEvent) : list bool :=
  match events with
  | [] => []
  | Control c :: rest => loads (snd (Native.ConsoleCtrlHandler c g)) rest
  | Load :: rest => g :: loads g rest
  end.

(** The states the polled loop reads successfully, in order: it goes on
    reading while the flag loads [true] and the read succeeds. *)
Fixpoint successful_reads (user : Native.DWORD) (running : list bool)
    (polls : list (Native.DWORD -> Native.DWORD * Native.XINPUT_STATE))
    : list Native.XINPUT_STATE :=
  match running, polls with
  | true :: running', poll :: polls' =>
      if fst (poll user) =? Native.ERROR_SUCCESS
      then snd (poll user) :: successful_reads user running' polls'
      else []
  | _, _ => []
  end.

(** The states whose packet number differs from that of the state before,
    [last] standing before the first. *)
Fixpoint changes (last : Native.DWORD) (states : list Native.XINPUT_STATE)
    : list Native.XINPUT_STATE :=
  match states with
  | [] => []
  | st :: rest =>
      (if Native.dwPacketNumber st =? last then [] else [st])
      ++ changes (Native.dwPacketNumber st) rest
  end.

(** Each number differs from the one before it, the first from [prev]. *)
Fixpoint no_repeat (prev : Z) (l : list Z) : Prop :=
  match l with
  | [] => True
  | a :: rest => a <> prev /\ no_repeat a rest
  end.

Definition is_Sleep (a : Action) : bool :=
  match a with Api (Sleep _) => true | _ => false end.

(** How often a run makes a discarded platform call of the kind [p]. *)
Definition count_call (p : ApiCall -> bool) (tr : list Action) : nat :=
  List.length (filter (fun a => match a with Api c => p c | _ => false end) tr).

Definition is_Release_di (c : ApiCall) : bool :=
  match c with Release_di => true | _ => false end.

Definition is_Release_dev (c : ApiCall) : bool :=
  match c with Release_dev => true | _ => false end.

Definition is_CloseHandle (c : ApiCall) : bool :=
  match c with CloseHandle => true | _ => false end.

Definition is_Unnotify (c : ApiCall) : bool :=
  match c with SetEventNotification_null => true | _ => false end.

Definition is_Unacquire (c : ApiCall) : bool :=
  match c with Unacquire => true | _ => false end.

Definition is_CoInitializeEx (c : ApiCall) : bool :=
  match c with CoInitializeEx => true | _ => false end.

Definition is_CoUninitialize (c : ApiCall) : bool :=
  match c with CoUninitialize => true | _ => false end.

(** What the event loop itself does: it writes and it re-acquires. *)
Definition loop_action (a : Action) : Prop :=
  match a with
  | Cout _ | Cerr _ | Api Acquire => True
  | _ => False
  end.

Definition bool_to_nat (b : bool) : nat := if b then 1%nat else 0%nat.

(** The drain asks again after this answer: the state was lost, or the call
    succeeded and returned at least one item. *)
Definition drains_on (a : Native.HRESULT * Native.DWORD) : bool :=
  Native.state_lost (fst a) || negb (Native.FAILED (fst a) || (snd a =? 0)).

Definition is_output (a : Action) : bool :=
  match a with Cout _ | Cerr _ => true | Api _ => false end.

Definition signalled (wait : Native.DWORD) : bool := wait =? Native.WAIT_OBJECT_0.

(** The number a run of decimal digits denotes, read after the digits of
    [acc]. *)
Fixpoint uint_val (acc : Z) (d : Decimal.uint) : Z :=
  match d with
  | Decimal.Nil => acc
  | Decimal.D0 d => uint_val (10 * acc + 0) d
  | Decimal.D1 d => uint_val (10 * acc + 1) d
  | Decimal.D2 d => uint_val (10 * acc + 2) d
  | Decimal.D3 d => uint_val (10 * acc + 3) d
  | Decimal.D4 d => uint_val (10 * acc + 4) d
  | Decimal.D5 d => uint_val (10 * acc + 5) d
  | Decimal.D6 d => uint_val (10 * acc + 6) d
  | Decimal.D7 d => uint_val (10 * acc + 7) d
  | Decimal.D8 d => uint_val (10 * acc + 8) d
  | Decimal.D9 d => uint_val (10 * acc + 9) d
  end.

(** The range check [std::stoi] ends with. *)
Definition in_int_range (v : Z) : option Z :=
  if (Native.INT_MIN <=? v) && (v <=? Native.INT_MAX) then Some v else None.

(** The members of [XINPUT_GAMEPAD] hold values of their C types: [SHORT]
    for the thumb sticks, [BYTE] for the triggers, [WORD] for the buttons. *)
Definition gamepad_in_range (g : Native.XINPUT_GAMEPAD) : Prop :=
  0 <= Native.wButtons g <= 65535
  /\ 0 <= Native.bLeftTrigger g <= 255
  /\ 0 <= Native.bRightTrigger g <= 255
  /\ -32768 <= Native.sThumbLX g <= 32767
  /\ -32768 <= Native.sThumbLY g <= 32767
  /\ -32768 <= Native.sThumbRX g <= 32767
  /\ -32768 <= Native.sThumbRY g <= 32767.

(** A field of the XInput line: a decimal number right-aligned in [w]
    columns. *)
Definition field (w : nat) (z : Z) : string := pad_left w " " (to_string z).

(** One of the four direction flags of the XInput line. *)
Definition dpad_flag (buttons mask : Z) : string :=
  to_string (if Z.land buttons mask =? 0 then 0 else 1).

(** The XInput line, field by field. *)
Definition xinput_line (g : Native.XINPUT_GAMEPAD) : string :=
  ("LX=" ++ field 6 (Native.sThumbLX g)
   ++ "  LY=" ++ field 6 (Native.sThumbLY g)
   ++ "  RX=" ++ field 6 (Native.sThumbRX g)
   ++ "  RY=" ++ field 6 (Native.sThumbRY g)
   ++ "  LT=" ++ field 3 (Native.bLeftTrigger g)
   ++ "  RT=" ++ field 3 (Native.bRightTrigger g)
   ++ "  Buttons=0x" ++ pad_left 4 "0" (to_hex (Native.wButtons g))
   ++ "  DPad(U/D/L/R)="
   ++ dpad_flag (Native.wButtons g) Native.XINPUT_GAMEPAD_DPAD_UP ++ "/"
   ++ dpad_flag (Native.wButtons g) Native.XINPUT_GAMEPAD_DPAD_DOWN ++ "/"
   ++ dpad_flag (Native.wButtons g) Native.XINPUT_GAMEPAD_DPAD_LEFT ++ "/"
   ++ dpad_flag (Native.wButtons g) Native.XINPUT_GAMEPAD_DPAD_RIGHT
   ++ nl)%string.

(** A point-of-view field of the DirectInput line. *)
Definition pov_field (pov : Z) : string :=
  if pov =? 0xFFFFFFFF then "---- "
  else (pad_left 4 " " (to_string pov) ++ " ")%string.

(** The 32 button flags of the DirectInput line. *)
Definition button_flags (js : Native.DIJOYSTATE2) : string :=
  string_of_list_ascii
    (map (fun i => if Z.land (nth i (Native.rgbButtons js) 0) 0x80 =? 0
                   then "0"%char else "1"%char)
         (seq 0 32)).

(** The DirectInput line, field by field. *)
Definition di_line (js : Native.DIJOYSTATE2) : string :=
  ("AXES: lX=" ++ field 6 (Native.lX js)
   ++ " lY=" ++ field 6 (Native.lY js)
   ++ " lZ=" ++ field 6 (Native.lZ js)
   ++ " lRx=" ++ field 6 (Native.lRx js)
   ++ " lRy=" ++ field 6 (Native.lRy js)
   ++ " lRz=" ++ field 6 (Native.lRz js)
   ++ " S0=" ++ field 6 (nth 0 (Native.rglSlider js) 0)
   ++ " S1=" ++ field 6 (nth 1 (Native.rglSlider js) 0)
   ++ " | POV: "
   ++ pov_field (nth 0 (Native.rgdwPOV js) 0)
   ++ pov_field (nth 1 (Native.rgdwPOV js) 0)
   ++ pov_field (nth 2 (Native.rgdwPOV js) 0)
   ++ pov_field (nth 3 (Native.rgdwPOV js) 0)
   ++ "| BTN: " ++ button_flags js ++ nl)%string.

(** An axis or slider value that fits 6 columns, and a point of view that
    fits 4: centred, or below 100 degrees (the unit is a hundredth of a
    degree). *)
Definition fits_axis (v : Z) : Prop := -99999 <= v <= 999999.

Definition fits_pov (pov : Z) : Prop := pov = 0xFFFFFFFF \/ 0 <= pov <= 9999.

Definition joystate_fits (js : Native.DIJOYSTATE2) : Prop :=
  fits_axis (Native.lX js) /\ fits_axis (Native.lY js) /\ fits_axis (Native.lZ js)
  /\ fits_axis (Native.lRx js) /\ fits_axis (Native.lRy js)
  /\ fits_axis (Native.lRz js)
  /\ fits_axis (nth 0 (Native.rglSlider js) 0)
  /\ fits_axis (nth 1 (Native.rglSlider js) 0)
  /\ forall i, (i < 4)%nat -> fits_pov (nth i (Native.rgdwPOV js) 0).

(** Two states that the DirectInput formatter cannot tell apart: the same
    axes, sliders and points of view, and the same first 32 buttons. *)
Definition same_shown (js js' : Native.DIJOYSTATE2) : Prop :=
  Native.lX js = Native.lX js' /\ Native.lY js = Native.lY js'
  /\ Native.lZ js = Native.lZ js' /\ Native.lRx js = Native.lRx js'
  /\ Native.lRy js = Native.lRy js' /\ Native.lRz js = Native.lRz js'
  /\ (forall i, (i < 2)%nat ->
        nth i (Native.rglSlider js) 0 = nth i (Native.rglSlider js') 0)
  /\ (forall i, (i < 4)%nat ->
        nth i (Native.rgdwPOV js) 0 = nth i (Native.rgdwPOV js') 0)
  /\ (forall i, (i < 32)%nat ->
        nth i (Native.rgbButtons js) 0 = nth i (Native.rgbButtons js') 0).

(** What a frame writes for a state: its line, unless the state has neither
    an axis nor a button. *)
Definition frame_line {double : Type} (axis_to_string : double -> string)
    (state : @Web.GamepadState double) : list Action :=
  match Web.axes state, Web.buttons state with
  | [], [] => []
  | _, _ => [Cout (Web.FormatGamepadState axis_to_string state ++ nl)]
  end.

(** The two kinds of call that can change the streaming flag: a stop, and a
    start whose index is a position of the list it builds. *)
Definition is_stop {double : Type} (c : @Web.Call double) : bool :=
  match c with
  | Web.CallStopStreaming => true
  | _ => false
  end.

Definition accepted_start {double : Type} (c : @Web.Call double) : bool :=
  match c with
  | Web.CallStartStreaming b i =>
      (0 <=? i) && (i <? Z.of_nat (List.length (Web.UpdateGamepadList b)))
  | _ => false
  end.


(** The texts written to standard error, in order. *)
Definition stderr_of (tr : list Action) : list string :=
  flat_map (fun a => match a with Cerr s => [s] | _ => [] end) tr.

(** What an enumeration does on DirectInput besides collecting devices: once
    it has the interface it calls [EnumDevices] and [Release]. *)
Definition directinput_enumeration (hw : Native.Hardware) : list Action :=
  if Native.SUCCEEDED (Native.DirectInput8Create hw)
  then [Api EnumDevices_GAMECTRL; Api Release_di]
  else [].

(** The texts of the listing.  [utf8] is the conversion of a device name;
    [position] is the place of the device in the catalog, counted from 0. *)
Definition kind_text (k : Native.DeviceKind) : string :=
  match k with
  | Native.XInput => "XInput   "
  | Native.DirectInput => "DirectInp"
  end.

Definition device_line (utf8 : wstring -> string) (position : nat)
    (d : Native.DeviceInfo) : string :=
  ("  [" ++ to_string (Z.of_nat position) ++ "] " ++ kind_text (Native.kind d)
   ++ "  " ++ utf8 (Native.name d)
   ++ match Native.kind d with
      | Native.XInput => " (user=" ++ to_string (Native.xinputUser d) ++ ")"
      | Native.DirectInput => ""
      end
   ++ nl)%string.

Definition device_lines (utf8 : wstring -> string) (from : nat)
    (devices : list Native.DeviceInfo) : list string :=
  map (fun p => device_line utf8 (fst p) (snd p))
      (combine (seq from (List.length devices)) devices).

Definition catalog_text (utf8 : wstring -> string)
    (devices : list Native.DeviceInfo) : list string :=
  match devices with
  | [] => ["No game controllers detected." ++ nl]%string
  | _ => ("Available devices:" ++ nl)%string :: device_lines utf8 0 devices
  end.

Definition selected_line (utf8 : wstring -> string) (position : Z)
    (d : Native.DeviceInfo) : string :=
  ("Selected [" ++ to_string position ++ "] " ++ kind_text (Native.kind d)
   ++ "  " ++ utf8 (Native.name d) ++ nl)%string.

(** What [main] does around the stream loop of the entry [sel]: nothing
    for an XInput entry; for a DirectInput entry COM is initialised before
    the loop and uninitialised once the loop has returned. *)
Definition around_loop (sel : Native.DeviceInfo) (loop : list Action * option Z)
    : list Action :=
  match Native.kind sel with
  | Native.XInput => fst loop
  | Native.DirectInput =>
      Api CoInitializeEx
      :: fst loop ++ match snd loop with
                     | Some _ => [Api CoUninitialize]
                     | None => []
                     end
  end.

(** An integer as the specification's command line means it: an optional
    sign and then decimal digits, at least one, and nothing else. *)
Definition is_digit (c : ascii) : bool :=
  (Nat.leb 48 (nat_of_ascii c) && Nat.leb (nat_of_ascii c) 57)%bool.

Fixpoint all_digits (s : string) : bool :=
  match s with
  | EmptyString => true
  | String c r => is_digit c && all_digits r
  end.

Definition integer_text (s : string) : bool :=
  let digits := match s with
                | String "-" r => r
                | String "+" r => r
                | _ => s
                end in
  negb (String.length digits =? 0)%nat && all_digits digits.

Definition starts_with_digit (s : string) : bool :=
  match s with
  | String c _ => is_digit c
  | EmptyString => false
  end.

(** Emscripten's HTML5 API documents [emscripten_sample_gamepad_data] as
    returning [EMSCRIPTEN_RESULT_SUCCESS], or [EMSCRIPTEN_RESULT_NOT_SUPPORTED]
    (-1) when the browser has no gamepad support; the number of gamepad slots
    is what [emscripten_get_num_gamepads] returns, a function the program
    does not call. *)
Definition EMSCRIPTEN_RESULT_NOT_SUPPORTED : Z := -1.

Definition sample_is_status {double : Type} (b : @Web.Browser double) : bool :=
  (Web.emscripten_sample_gamepad_data b =? Web.EMSCRIPTEN_RESULT_SUCCESS)
  || (Web.emscripten_sample_gamepad_data b =? EMSCRIPTEN_RESULT_NOT_SUPPORTED).

(** A call during which the browser answers the sampling call as
    documented. *)
Definition call_as_documented {double : Type} (c : @Web.Call double) : bool :=
  match c with
  | Web.CallListGamepads b => sample_is_status b
  | Web.CallStartStreaming b _ => sample_is_status b
  | Web.CallUpdateGamepadState b => sample_is_status b
  | _ => true
  end.

(** * Sample inputs *)

(** The status of a pad with one button and no axis.  Axis values play no
    part in the examples, so [double] is [unit] in them. *)
Definition pad_event (connected : bool) : @Web.EmscriptenGamepadEvent unit :=
  Web.mkEvent tt 0 1 (fun _ => tt) (fun _ => tt) (fun _ => 0)
              connected "pad" "standard".

(** A pad with nothing pressed, as [XINPUT_STATE st = {}] leaves it. *)
Definition idle_gamepad : Native.XINPUT_GAMEPAD := Native.mkGamepad 0 0 0 0 0 0 0.

(** The platform answering every user index with success and the given
    packet. *)
Definition answer (packet : Z) : Native.DWORD -> Native.DWORD * Native.XINPUT_STATE :=
  fun _ => (Native.ERROR_SUCCESS, Native.mkXState packet idle_gamepad).

(** The platform answering [ERROR_DEVICE_NOT_CONNECTED] (1167). *)
Definition unplugged : Native.DWORD -> Native.DWORD * Native.XINPUT_STATE :=
  fun _ => (1167, Native.mkXState 0 idle_gamepad).

(** A joystick at rest, as [DIJOYSTATE2 js = {}] leaves it. *)
Definition centred : Native.DIJOYSTATE2 := Native.mkJoyState 0 0 0 0 0 0 [] [] [].

(** The event fires; the first [GetDeviceData] reports the input lost, the
    second reports an empty buffer, and [GetDeviceState] succeeds. *)
Definition lost_in_drain : Native.DIFeed :=
  Native.mkDIFeed [Native.WAIT_OBJECT_0]
                  [(Native.DIERR_INPUTLOST, 0); (Native.DI_OK, 0)]
                  [(Native.DI_OK, centred)].

(** A failure status other than the two state-lost ones. *)
Definition E_FAIL : Native.HRESULT := 0x80004005 - 2 ^ 32.

(** Every preparatory call succeeds. *)
Definition setup_ok : Native.DISetup := Native.mkDISetup 0 0 1 0 0 1 0 0.

(** For examples: a conversion that agrees with UTF-8 on names made of
    ASCII characters. *)
Definition utf8_of_ascii (ws : wstring) : string :=
  string_of_list_ascii (map (fun c => ascii_of_N (Z.to_N c)) ws).

Definition idle_state : Native.XINPUT_STATE := Native.mkXState 0 idle_gamepad.

(** A pad on XInput user 0; on DirectInput the proxy of that pad and a
    flight stick. *)
Definition two_devices : Native.Hardware :=
  Native.mkHardware
    (fun user => if user =? 0 then (Native.ERROR_SUCCESS, idle_state)
                 else (1167, idle_state))
    0
    [Native.mkInstance 11 (Some (L "Controller (XBOX 360 For Windows)"));
     Native.mkInstance 12 (Some (L "Logitech Extreme 3D Pro"))].

(** No XInput user connected and no DirectInput device attached. *)
Definition nothing_attached : Native.Hardware :=
  Native.mkHardware (fun _ => (1167, idle_state)) 0 [].

(** A run in which [main] finds [two_devices], the listing finds
    [listing], the stop flag reads true once and then false, and each reader
    gets one answer. *)
Definition sample_world (listing : Native.Hardware) : Native.World :=
  Native.mkWorld 1 two_devices listing [true; false] [answer 1]
                 setup_ok (Native.mkDIFeed [Native.WAIT_TIMEOUT] [] [(0, centred)]).

(** A browser in which every slot holds a connected pad with one button;
    the sampling call answers [EMSCRIPTEN_RESULT_SUCCESS]. *)
Definition connected_pad : @Web.Browser unit :=
  Web.mkBrowser Web.EMSCRIPTEN_RESULT_SUCCESS (fun _ => (0, pad_event true)).

(** The rendering of an axis in the examples, none of which has an axis. *)
Definition no_axis_text : unit -> string := fun _ => "0.000000".

(** A stick pushed to the right with the first hat at 90 degrees. *)
Definition stick_right : Native.DIJOYSTATE2 :=
  Native.mkJoyState 32767 (-200) 0 0 0 0 [5; 6]
    [9000; 0xFFFFFFFF; 0xFFFFFFFF; 0xFFFFFFFF] (repeat 0 128).

(** A stick at rest with the first hat at 180 degrees, and the same with
    button 40 held as well. *)
Definition hat_south : Native.DIJOYSTATE2 :=
  Native.mkJoyState 0 0 0 0 0 0 [0; 0]
    [18000; 0xFFFFFFFF; 0xFFFFFFFF; 0xFFFFFFFF] (repeat 0 128).

Definition hat_south_button_40 : Native.DIJOYSTATE2 :=
  Native.mkJoyState 0 0 0 0 0 0 [0; 0]
    [18000; 0xFFFFFFFF; 0xFFFFFFFF; 0xFFFFFFFF]
    (repeat 0 40 ++ 0x80 :: repeat 0 87).

(** * Properties *)

(** ** Substring search *)

Lemma starts_with_prefix (needle hay : wstring) :
  starts_with needle hay = true <-> exists post, hay = needle ++ post.
Proof.
  revert hay; induction needle as [|n ns IH]; intros hay; simpl.
  - split; [intros _; now exists hay | reflexivity].
  - destruct hay as [|h hs].
    + split; [discriminate | intros [post E]; discriminate].
    + rewrite andb_true_iff, Z.eqb_eq, IH. split.
      * intros [-> [post ->]]. now exists post.
      * intros [post E]. injection E as -> ->. split; [reflexivity | now exists post].
Qed.

Lemma find_from_contains (hay needle : wstring) (pos : nat) :
  not_npos (find_from pos hay needle) = true <-> contains hay needle.
Proof.
  revert pos; induction hay as [|h hs IH]; intros pos; simpl.
  - destruct (starts_with needle []) eqn:E.
    + split; [intros _ | reflexivity].
      apply starts_with_prefix in E as [post E]. now exists [], post.
    + split; [discriminate|].
      intros [pre [post E']]. destruct pre; [|discriminate]. simpl in E'.
      assert (starts_with needle [] = true) by (apply starts_with_prefix; now exists post).
      congruence.
  - destruct (starts_with needle (h :: hs)) eqn:E.
    + split; [intros _ | reflexivity].
      apply starts_with_prefix in E as [post E]. now exists [], post.
    + rewrite IH. split.
      * intros [pre [post ->]]. now exists (h :: pre), post.
      * intros [pre [post E']]. destruct pre as [|p pre].
        -- simpl in E'.
           assert (starts_with needle (h :: hs) = true)
             by (apply starts_with_prefix; now exists post).
           congruence.
        -- injection E' as _ ->. now exists pre, post.
Qed.

Lemma find_contains (hay needle : wstring) :
  not_npos (find hay needle) = true <-> contains hay needle.
Proof. apply find_from_contains. Qed.

(** ** The duplicate filter *)

Lemma map_towlower_ascii (towlower : wchar_t -> wchar_t) (s : wstring) :
  (forall c, 0 <= c < 128 -> towlower c = towlower_C c) ->
  all_ascii s = true ->
  map towlower s = map towlower_C s.
Proof.
  intros H. induction s as [|c s IH]; simpl; [reflexivity|].
  rewrite andb_true_iff, andb_true_iff, Z.leb_le, Z.ltb_lt.
  intros [Hc Hs]. now rewrite H, IH.
Qed.

Lemma IsLikelyXInputDuplicate_contains towlower inst :
  Native.IsLikelyXInputDuplicate towlower inst = true <->
  contains (folded_name towlower inst) (L "xinput")
  \/ contains (folded_name towlower inst) (L "(xbox")
  \/ contains (folded_name towlower inst) (L "ig_").
Proof.
  unfold Native.IsLikelyXInputDuplicate, folded_name. cbv zeta.
  change (L "") with (@nil wchar_t).
  set (lname := map towlower _).
  pose proof (find_contains lname (L "xinput")) as H1.
  pose proof (find_contains lname (L "(xbox")) as H2.
  pose proof (find_contains lname (L "ig_")) as H3.
  destruct (not_npos (find lname (L "xinput")));
  destruct (not_npos (find lname (L "(xbox")));
  destruct (not_npos (find lname (L "ig_")));
  intuition (auto; try discriminate).
Qed.

(** C2.  A DirectInput device is excluded by the duplicate filter exactly
    when its case-folded product name contains "xinput", "(xbox" or "ig_";
    the callback then leaves the list as it is and otherwise appends one
    entry.  With a [towlower] that folds ASCII the way the C locale does,
    "Xbox 360 Controller (XInput STANDARD GAMEPAD)" is excluded and
    "Logitech Extreme 3D Pro" is kept. *)
Theorem duplicate_filter_iff (towlower : wchar_t -> wchar_t) :
  (forall c, 0 <= c < 128 -> towlower c = towlower_C c) ->
  (forall inst,
      Native.IsLikelyXInputDuplicate towlower inst = true <->
      contains (folded_name towlower inst) (L "xinput")
      \/ contains (folded_name towlower inst) (L "(xbox")
      \/ contains (folded_name towlower inst) (L "ig_"))
  /\ (forall out inst,
      Native.EnumDIEnumDevicesCallback towlower out inst =
      if Native.IsLikelyXInputDuplicate towlower inst then out
      else out ++ [Native.mkDeviceInfo 0 Native.DirectInput
                     match Native.tszProductName inst with
                     | Some s => s | None => L "DirectInput Device" end
                     0 (Native.guidInstance inst)])
  /\ (forall guid,
      Native.IsLikelyXInputDuplicate towlower
        (Native.mkInstance guid
           (Some (L "Xbox 360 Controller (XInput STANDARD GAMEPAD)"))) = true)
  /\ (forall guid,
      Native.IsLikelyXInputDuplicate towlower
        (Native.mkInstance guid (Some (L "Logitech Extreme 3D Pro"))) = false).
Proof.
  intros H. split; [exact (IsLikelyXInputDuplicate_contains towlower)|].
  split; [reflexivity|].
  split; intros guid; unfold Native.IsLikelyXInputDuplicate; simpl Native.tszProductName;
    rewrite (map_towlower_ascii towlower _ H) by (vm_compute; reflexivity);
    vm_compute; reflexivity.
Qed.

Lemma duplicate_filter_iff_witness :
  Native.IsLikelyXInputDuplicate towlower_C
    (Native.mkInstance 7 (Some (L "Xbox 360 Controller (XInput STANDARD GAMEPAD)"))) = true
  /\ Native.IsLikelyXInputDuplicate towlower_C
    (Native.mkInstance 8 (Some (L "Logitech Extreme 3D Pro"))) = false.
Proof.
  pose proof (duplicate_filter_iff towlower_C (fun c _ => eq_refl)) as [_ [_ [Hx Hl]]].
  split; [apply Hx | apply Hl].
Defined.

(** ** The catalog *)

Lemma assign_at_middle pre d ds v :
  Native.assign_at (List.length pre) v (pre ++ d :: ds)
  = pre ++ Native.set_index v d :: ds.
Proof. induction pre as [|p pre IH]; simpl; [reflexivity | now rewrite IH]. Qed.

Lemma index_loop_from pre ds :
  fold_left (fun l i => Native.assign_at i (Z.of_nat i) l)
            (seq (List.length pre) (List.length ds)) (pre ++ ds)
  = pre ++ number_from (List.length pre) ds.
Proof.
  revert pre; induction ds as [|d ds IH]; intros pre; simpl; [reflexivity|].
  rewrite assign_at_middle.
  specialize (IH (pre ++ [Native.set_index (Z.of_nat (List.length pre)) d])).
  rewrite length_app, Nat.add_1_r, <- !app_assoc in IH. exact IH.
Qed.

Lemma index_loop ds :
  fold_left (fun l i => Native.assign_at i (Z.of_nat i) l)
            (seq 0 (List.length ds)) ds
  = number_from 0 ds.
Proof. exact (index_loop_from [] ds). Qed.

Lemma number_from_index a ds :
  map Native.index (number_from a ds) = map Z.of_nat (seq a (List.length ds)).
Proof. revert a; induction ds as [|d ds IH]; intros a; simpl; [|rewrite IH]; reflexivity. Qed.

Lemma number_from_length a ds : List.length (number_from a ds) = List.length ds.
Proof. revert a; induction ds as [|d ds IH]; intros a; simpl; [|rewrite IH]; reflexivity. Qed.



Lemma EnumerateDevices_indices towlower hw :
  map Native.index (Native.EnumerateDevices towlower hw)
  = map Z.of_nat (seq 0 (List.length (Native.EnumerateDevices towlower hw))).
Proof.
  unfold Native.EnumerateDevices. cbv zeta.
  rewrite index_loop, number_from_index, number_from_length. reflexivity.
Qed.



(** The loop of [UpdateGamepadList] runs [numGamepads] times, and
    [numGamepads] is the value of the sampling call: a status, 0 or -1.  So
    the loop body never runs. *)
Lemma UpdateGamepadList_status {double : Type} (b : @Web.Browser double) :
  sample_is_status b = true -> Web.UpdateGamepadList b = [].
Proof.
  unfold sample_is_status, Web.UpdateGamepadList. intros H.
  apply orb_true_iff in H as [H|H]; apply Z.eqb_eq in H; rewrite H; reflexivity.
Qed.



(** ** The polled loop *)

Lemma XInputLoop_read user last poll st running polls :
  poll user = (Native.ERROR_SUCCESS, st) ->
  Native.XInputLoop user last (true :: running) (poll :: polls)
  = (line_if_changed last st ++ Api (Sleep 2)
       :: fst (Native.XInputLoop user (Native.dwPacketNumber st) running polls),
     snd (Native.XInputLoop user (Native.dwPacketNumber st) running polls)).
Proof.
  intros E. simpl. rewrite E. simpl. unfold line_if_changed.
  destruct (Z.eqb_spec (Native.dwPacketNumber st) last) as [->|N]; simpl;
    destruct (Native.XInputLoop user _ running polls); reflexivity.
Qed.

(** C5.  In the polled loop a successful read whose packet number differs
    from the remembered one writes exactly one formatted line, a read whose
    packet number equals it writes nothing, and either way the packet number
    just read is the one remembered next; so of two consecutive successful
    reads with the same packet number the second writes nothing. *)
Theorem polled_prints_on_change user last poll1 poll2 st1 st2 running polls :
  poll1 user = (Native.ERROR_SUCCESS, st1) ->
  poll2 user = (Native.ERROR_SUCCESS, st2) ->
  let next := Native.XInputLoop user (Native.dwPacketNumber st1) running polls in
  let after2 := Native.XInputLoop user (Native.dwPacketNumber st2) running polls in
  (Native.dwPacketNumber st1 <> last ->
   Native.XInputLoop user last (true :: running) (poll1 :: polls)
   = (Cout (written_by (Native.PrintXInputState st1)) :: Api (Sleep 2) :: fst next, snd next))
  /\ (Native.dwPacketNumber st1 = last ->
      Native.XInputLoop user last (true :: running) (poll1 :: polls)
      = (Api (Sleep 2) :: fst next, snd next))
  /\ (Native.dwPacketNumber st2 = Native.dwPacketNumber st1 ->
      Native.XInputLoop user last (true :: true :: running) (poll1 :: poll2 :: polls)
      = (line_if_changed last st1 ++ Api (Sleep 2) :: Api (Sleep 2) :: fst next,
         snd next))
  /\ (Native.dwPacketNumber st2 <> Native.dwPacketNumber st1 ->
      Native.XInputLoop user last (true :: true :: running) (poll1 :: poll2 :: polls)
      = (line_if_changed last st1 ++ Api (Sleep 2)
           :: Cout (written_by (Native.PrintXInputState st2)) :: Api (Sleep 2) :: fst after2,
         snd after2)).
Proof.
  intros E1 E2 next after2. repeat split.
  - intros N. rewrite (XInputLoop_read _ _ _ _ _ _ E1). unfold line_if_changed.
    destruct (Z.eqb_spec (Native.dwPacketNumber st1) last); [contradiction | reflexivity].
  - intros <-. rewrite (XInputLoop_read _ _ _ _ _ _ E1). unfold line_if_changed.
    now rewrite Z.eqb_refl.
  - intros E. rewrite (XInputLoop_read _ _ _ _ _ _ E1),
      (XInputLoop_read _ _ _ _ _ _ E2). unfold next. rewrite <- E.
    unfold line_if_changed at 2. rewrite E, Z.eqb_refl. reflexivity.
  - intros N. rewrite (XInputLoop_read _ _ _ _ _ _ E1),
      (XInputLoop_read _ _ _ _ _ _ E2). unfold after2.
    unfold line_if_changed at 2.
    destruct (Z.eqb_spec (Native.dwPacketNumber st2) (Native.dwPacketNumber st1));
      [contradiction | reflexivity].
Qed.

Lemma polled_prints_on_change_witness :
  Native.XInputLoop 0 0 [true; true; false] [answer 5; answer 5]
  = ([Cout (written_by (Native.PrintXInputState (Native.mkXState 5 idle_gamepad)));
      Api (Sleep 2); Api (Sleep 2)], Some 0).
Proof.
  pose proof (polled_prints_on_change 0 0 (answer 5) (answer 5)
                (Native.mkXState 5 idle_gamepad) (Native.mkXState 5 idle_gamepad)
                [false] [] eq_refl eq_refl) as [_ [_ [H _]]].
  exact (H eq_refl).
Defined.

Lemma state_line_not_notice st : Cout (written_by (Native.PrintXInputState st)) <> disconnect_notice.
Proof.
  unfold disconnect_notice. intros H.
  apply (f_equal (fun a => match a with Cout s => first_char s | _ => None end)) in H.
  lazy in H. discriminate.
Qed.

Lemma XInputLoop_disconnect user last poll running polls :
  fst (poll user) <> Native.ERROR_SUCCESS ->
  Native.XInputLoop user last (true :: running) (poll :: polls)
  = ([disconnect_notice], Some 1).
Proof.
  intros N. simpl. destruct (poll user) as [res st]. simpl in N.
  destruct (Z.eqb_spec res Native.ERROR_SUCCESS); [contradiction | reflexivity].
Qed.

Lemma XInputLoop_outcome user running :
  forall last polls rc,
    snd (Native.XInputLoop user last running polls) = Some rc ->
    (rc = 0
     /\ ~ In disconnect_notice (fst (Native.XInputLoop user last running polls))
     /\ exists n, stopped_at user running polls n)
    \/ (rc = 1
        /\ (exists tr, fst (Native.XInputLoop user last running polls)
                       = tr ++ [disconnect_notice])
        /\ exists n, disconnected_at user running polls n).
Proof.
  induction running as [|r running IH]; intros last polls rc H.
  - discriminate.
  - destruct r.
    + destruct polls as [|poll polls]; [discriminate|].
      destruct (Z.eq_dec (fst (poll user)) Native.ERROR_SUCCESS) as [E|N].
      * destruct (poll user) as [res st] eqn:Ep. simpl in E. subst res.
        rewrite (XInputLoop_read _ _ _ _ _ _ Ep) in *. simpl in H.
        destruct (IH _ _ _ H) as [[-> [Hn [n Hs]]] | [-> [[tr Ht] [n Hd]]]].
        -- left. split; [reflexivity|]. split.
           ++ simpl. intros Hin. apply in_app_or in Hin as [Hin | [Hin | Hin]].
              ** unfold line_if_changed in Hin.
                 destruct (Native.dwPacketNumber st =? last); [destruct Hin|].
                 destruct Hin as [Hin | []]. now apply state_line_not_notice in Hin.
              ** discriminate.
              ** contradiction.
           ++ exists (S n). destruct Hs as [Hs1 Hs2]. split; [exact Hs1|].
              intros [|k] Hk; [|apply Hs2; lia].
              split; [reflexivity|]. exists poll. now rewrite Ep.
        -- right. split; [reflexivity|]. split.
           ++ simpl. rewrite Ht.
              exists (line_if_changed last st ++ Api (Sleep 2) :: tr).
              now rewrite <- app_assoc.
           ++ exists (S n). destruct Hd as [Hd1 [Hd2 Hd3]].
              split; [exact Hd1|]. split; [exact Hd2|].
              intros [|k] Hk; [|apply Hd3; lia].
              split; [reflexivity|]. exists poll. now rewrite Ep.
      * rewrite (XInputLoop_disconnect _ _ _ _ _ N) in *. simpl in H.
        injection H as <-. right. split; [reflexivity|]. split.
        -- now exists [].
        -- exists 0%nat. split; [reflexivity|]. split; [now exists poll|].
           intros k Hk; lia.
    + simpl in H. injection H as <-. left. split; [reflexivity|]. split.
      * simpl. tauto.
      * exists 0%nat. split; [reflexivity|]. intros k Hk; lia.
Qed.

(** C6.  The polled run ends in one of two ways and no other.  When the
    stop flag reads false at the head of the loop the run returns 0, writing
    nothing more.  When a read reports the slot disconnected the run writes
    the disconnect notice and returns 1.  Conversely a run that returns has
    returned 0 after the flag read false, without any disconnect notice, or
    1 after a failed read, the notice being the last thing written. *)
Theorem polled_terminal_outcomes user running polls :
  (forall last rest, Native.XInputLoop user last (false :: rest) polls = ([], Some 0))
  /\ (forall last poll rest_running rest_polls,
        fst (poll user) <> Native.ERROR_SUCCESS ->
        Native.XInputLoop user last (true :: rest_running) (poll :: rest_polls)
        = ([disconnect_notice], Some 1))
  /\ (forall rc,
        snd (Native.RunXInputReader user running polls) = Some rc ->
        (rc = 0
         /\ ~ In disconnect_notice (fst (Native.RunXInputReader user running polls))
         /\ exists n, stopped_at user running polls n)
        \/ (rc = 1
            /\ (exists tr, fst (Native.RunXInputReader user running polls)
                           = tr ++ [disconnect_notice])
            /\ exists n, disconnected_at user running polls n)).
Proof.
  split; [reflexivity|]. split.
  - intros last poll rr rp N. now apply XInputLoop_disconnect.
  - intros rc. unfold Native.RunXInputReader.
    destruct (Native.XInputLoop user 0 running polls) as [tr0 rc0] eqn:E.
    simpl. intros ->.
    pose proof (XInputLoop_outcome user running 0 polls rc) as H.
    rewrite E in H. simpl in H.
    destruct (H eq_refl) as [[-> [Hn Hs]] | [-> [[tr Ht] Hd]]].
    + left. split; [reflexivity|]. split; [|exact Hs].
      intros [Hin | Hin]; [|contradiction].
      unfold disconnect_notice in Hin. injection Hin as Hin.
      simpl in Hin. discriminate.
    + right. split; [reflexivity|]. split; [|exact Hd].
      subst tr0. eexists. apply app_comm_cons.
Qed.

Lemma polled_terminal_outcomes_witness :
  Native.XInputLoop 0 5 [true; true] [unplugged] = ([disconnect_notice], Some 1)
  /\ ((1 = 0
       /\ ~ In disconnect_notice
            (fst (Native.RunXInputReader 0 [true; true] [answer 5; unplugged]))
       /\ exists n, stopped_at 0 [true; true] [answer 5; unplugged] n)
      \/ (1 = 1
          /\ (exists tr, fst (Native.RunXInputReader 0 [true; true] [answer 5; unplugged])
                         = tr ++ [disconnect_notice])
          /\ exists n, disconnected_at 0 [true; true] [answer 5; unplugged] n)).
Proof.
  split.
  - apply (polled_terminal_outcomes 0 [] []). simpl. discriminate.
  - apply (polled_terminal_outcomes 0 [true; true] [answer 5; unplugged]).
    reflexivity.
Defined.

(** ** The event loop *)

Lemma count_Acquire_app tr1 tr2 :
  count_Acquire (tr1 ++ tr2) = (count_Acquire tr1 + count_Acquire tr2)%nat.
Proof. unfold count_Acquire. now rewrite filter_app, length_app. Qed.

Lemma stdout_of_app tr1 tr2 : stdout_of (tr1 ++ tr2) = stdout_of tr1 ++ stdout_of tr2.
Proof. unfold stdout_of. apply flat_map_app. Qed.

Lemma DrainBuffered_lost hr dwItems rest :
  Native.state_lost hr = true ->
  Native.DrainBuffered ((hr, dwItems) :: rest)
  = (Api Acquire :: fst (Native.DrainBuffered rest), snd (Native.DrainBuffered rest)).
Proof.
  intros E. simpl. rewrite E. now destruct (Native.DrainBuffered rest).
Qed.

(** The drain writes nothing, and it re-acquires once for each state-lost
    answer among those it consumed. *)
Lemma DrainBuffered_trace data :
  stdout_of (fst (Native.DrainBuffered data)) = []
  /\ exists consumed,
       data = consumed ++ match snd (Native.DrainBuffered data) with
                          | Some rest => rest
                          | None => []
                          end
       /\ count_Acquire (fst (Native.DrainBuffered data)) = lost_count consumed.
Proof.
  induction data as [|[hr n] data [IH1 [consumed [IH2 IH3]]]].
  - split; [reflexivity|]. now exists [].
  - destruct (Native.state_lost hr) eqn:E.
    + rewrite (DrainBuffered_lost _ _ _ E). simpl. split; [exact IH1|].
      exists ((hr, n) :: consumed). split.
      * simpl. now rewrite <- IH2.
      * unfold lost_count, count_Acquire in *. simpl. rewrite E. simpl. now rewrite IH3.
    + simpl. rewrite E.
      destruct (Native.FAILED hr || (n =? 0)) eqn:F.
      * simpl. split; [reflexivity|]. exists [(hr, n)]. split; [reflexivity|].
        unfold lost_count. simpl. now rewrite E.
      * split; [exact IH1|]. exists ((hr, n) :: consumed). split.
        -- simpl. now rewrite <- IH2.
        -- unfold lost_count in *. simpl. now rewrite E.
Qed.

Lemma DIIteration_signalled_lost waits data states hr js tr data' :
  Native.DrainBuffered data = (tr, Some data') ->
  Native.state_lost hr = true ->
  Native.DIIteration (Native.mkDIFeed (Native.WAIT_OBJECT_0 :: waits) data
                                      ((hr, js) :: states))
  = (tr ++ [Api Acquire], Native.Continue, Native.mkDIFeed waits data' states).
Proof.
  intros D E. unfold Native.DIIteration. simpl. rewrite D, E. reflexivity.
Qed.

Lemma DIIteration_timeout_lost waits data states hr js :
  Native.state_lost hr = true ->
  Native.DIIteration (Native.mkDIFeed (Native.WAIT_TIMEOUT :: waits) data
                                      ((hr, js) :: states))
  = ([Api Acquire], Native.Continue, Native.mkDIFeed waits data states).
Proof. intros E. unfold Native.DIIteration. simpl. now rewrite E. Qed.

(** In every pass through the loop body the number of re-acquire calls is
    the number of state-lost answers the pass consumed. *)
Lemma lost_count_one {A : Type} hr (a : A) :
  lost_count [(hr, a)] = if Native.state_lost hr then 1%nat else 0%nat.
Proof. unfold lost_count. simpl. now destruct (Native.state_lost hr). Qed.

Lemma DIIteration_one_acquire_per_loss q :
  let '(tr, _, q') := Native.DIIteration q in
  exists drained read,
    Native.data q = drained ++ Native.data q'
    /\ Native.states q = read ++ Native.states q'
    /\ count_Acquire tr = (lost_count drained + lost_count read)%nat.
Proof.
  unfold Native.DIIteration. destruct q as [waits data states]. simpl.
  destruct waits as [|wait waits].
  { exists [], []. repeat split. }
  destruct (wait =? Native.WAIT_OBJECT_0).
  - destruct (DrainBuffered_trace data) as [_ [consumed [Hc Ha]]].
    destruct (Native.DrainBuffered data) as [tr [data'|]]; simpl in *.
    + destruct states as [|[hr js] states]; simpl.
      * exists consumed, []. split; [exact Hc|]. split; [reflexivity|].
        rewrite Ha. unfold lost_count. simpl. lia.
      * pose proof (lost_count_one hr js) as L1.
        destruct (Native.state_lost hr) eqn:E;
          [|destruct (Native.SUCCEEDED hr)]; simpl;
          exists consumed, [(hr, js)]; (split; [exact Hc|]); (split; [reflexivity|]);
          rewrite ?count_Acquire_app, Ha, L1; unfold count_Acquire; simpl; lia.
    + exists consumed, []. rewrite app_nil_r in Hc.
      split; [now rewrite app_nil_r|]. split; [reflexivity|].
      rewrite Ha. unfold lost_count. simpl. lia.
  - destruct (wait =? Native.WAIT_TIMEOUT).
    + destruct states as [|[hr js] states]; simpl.
      * exists [], []. repeat split.
      * pose proof (lost_count_one hr js) as L1.
        destruct (Native.state_lost hr) eqn:E; [|destruct (Native.FAILED hr)]; simpl;
          exists [], [(hr, js)]; (split; [reflexivity|]); (split; [reflexivity|]);
          rewrite L1; reflexivity.
    + simpl. exists [], []. repeat split.
Qed.

Lemma DILoop_continue running q tr q' :
  Native.DIIteration q = (tr, Native.Continue, q') ->
  Native.DILoop (true :: running) q
  = (tr ++ fst (Native.DILoop running q'), snd (Native.DILoop running q')).
Proof.
  intros E. simpl. rewrite E. now destruct (Native.DILoop running q').
Qed.

(** C3, as stated, fails for the drain: after a state-lost answer from
    [GetDeviceData] the same pass goes on to read the full state and writes
    a line. *)
Lemma state_lost_counterexample :
  Native.state_lost Native.DIERR_INPUTLOST = true
  /\ Native.DIIteration lost_in_drain
     = ([Api Acquire; Cout (written_by (Native.PrintDIState centred))], Native.Continue,
        Native.mkDIFeed [] [] [])
  /\ stdout_of (fst (fst (Native.DIIteration lost_in_drain))) <> [].
Proof. repeat split. vm_compute. discriminate. Qed.

(** C3, amended.  Every state-lost status is answered by exactly one
    re-acquire call: in each pass through the loop body the number of
    re-acquires equals the number of state-lost answers consumed.  When the
    full-state read returns it, after the event fired or on the timeout
    path, the pass writes nothing and the loop goes on to its next test of
    the stop flag.  When the drain returns it, the drain re-acquires once and
    asks again within the same pass; the drain itself writes nothing. *)
Theorem state_lost_reacquire :
  (forall hr dwItems rest,
      Native.state_lost hr = true ->
      Native.DrainBuffered ((hr, dwItems) :: rest)
      = (Api Acquire :: fst (Native.DrainBuffered rest),
         snd (Native.DrainBuffered rest)))
  /\ (forall data, stdout_of (fst (Native.DrainBuffered data)) = [])
  /\ (forall waits data states hr js tr data',
      Native.DrainBuffered data = (tr, Some data') ->
      Native.state_lost hr = true ->
      Native.DIIteration (Native.mkDIFeed (Native.WAIT_OBJECT_0 :: waits) data
                                          ((hr, js) :: states))
      = (tr ++ [Api Acquire], Native.Continue, Native.mkDIFeed waits data' states)
      /\ stdout_of (tr ++ [Api Acquire]) = [])
  /\ (forall waits data states hr js,
      Native.state_lost hr = true ->
      Native.DIIteration (Native.mkDIFeed (Native.WAIT_TIMEOUT :: waits) data
                                          ((hr, js) :: states))
      = ([Api Acquire], Native.Continue, Native.mkDIFeed waits data states))
  /\ (forall running q tr q',
      Native.DIIteration q = (tr, Native.Continue, q') ->
      Native.DILoop (true :: running) q
      = (tr ++ fst (Native.DILoop running q'), snd (Native.DILoop running q')))
  /\ (forall q,
      let '(tr, _, q') := Native.DIIteration q in
      exists drained read,
        Native.data q = drained ++ Native.data q'
        /\ Native.states q = read ++ Native.states q'
        /\ count_Acquire tr = (lost_count drained + lost_count read)%nat).
Proof.
  split; [exact DrainBuffered_lost|].
  split; [intros data; apply DrainBuffered_trace|].
  split.
  { intros waits data states hr js tr data' D E. split.
    - now apply DIIteration_signalled_lost.
    - rewrite stdout_of_app. simpl. rewrite app_nil_r.
      pose proof (DrainBuffered_trace data) as [H _]. now rewrite D in H. }
  split; [exact DIIteration_timeout_lost|].
  split; [exact DILoop_continue|].
  exact DIIteration_one_acquire_per_loss.
Qed.

Lemma state_lost_reacquire_witness :
  Native.DrainBuffered [(Native.DIERR_NOTACQUIRED, 0); (Native.DI_OK, 0)]
  = ([Api Acquire], Some [])
  /\ Native.DIIteration
       (Native.mkDIFeed [Native.WAIT_OBJECT_0] [(Native.DI_OK, 0)]
                        [(Native.DIERR_INPUTLOST, centred)])
     = ([Api Acquire], Native.Continue, Native.mkDIFeed [] [] [])
  /\ Native.DIIteration
       (Native.mkDIFeed [Native.WAIT_TIMEOUT] [] [(Native.DIERR_INPUTLOST, centred)])
     = ([Api Acquire], Native.Continue, Native.mkDIFeed [] [] []).
Proof.
  pose proof state_lost_reacquire as [Hd [_ [Hs [Ht _]]]].
  split; [|split].
  - exact (Hd Native.DIERR_NOTACQUIRED 0 [(Native.DI_OK, 0)] eq_refl).
  - exact (proj1 (Hs [] [(Native.DI_OK, 0)] [] Native.DIERR_INPUTLOST centred
                     [] [] eq_refl eq_refl)).
  - exact (Ht [] [] [] Native.DIERR_INPUTLOST centred eq_refl).
Defined.

(** Once the preparation has succeeded the function returns 0 however its
    loop is left. *)
Lemma RunDirectInputReader_loop_result guid hwnd s running q :
  Native.FAILED (Native.r_DirectInput8Create s) = false ->
  Native.FAILED (Native.r_CreateDevice s) = false ->
  (hwnd =? 0) && (Native.r_CreateHiddenWindow s =? 0) = false ->
  Native.FAILED (Native.r_SetDataFormat s) = false ->
  Native.FAILED (Native.r_SetCooperativeLevel s) = false ->
  (Native.r_CreateEventW s =? 0) = false ->
  Native.FAILED (Native.r_SetEventNotification s) = false ->
  Native.FAILED (Native.r_Acquire s) = false ->
  Native.RunDirectInputReader guid hwnd s running q
  = if snd (Native.DILoop running q)
    then (reading_directinput :: Api (SetProperty_BufferSize 64)
            :: fst (Native.DILoop running q) ++ release_all, Some 0)
    else (reading_directinput :: Api (SetProperty_BufferSize 64)
            :: fst (Native.DILoop running q), None).
Proof.
  intros H1 H2 H3 H4 H5 H6 H7 H8. unfold Native.RunDirectInputReader.
  rewrite H1, H2, H3, H4, H5, H6, H7, H8.
  now destruct (Native.DILoop running q) as [tr []].
Qed.

(** C4 at its failing inputs.  With the device prepared and the stop flag
    still true, a timeout whose full-state read fails with [E_FAIL], and a
    failed wait, each end the loop and print their message, and the function
    then returns 0. *)
Theorem event_loop_fatal_returns_zero :
  Native.RunDirectInputReader 42 1 setup_ok [true; true]
    (Native.mkDIFeed [Native.WAIT_TIMEOUT] [] [(E_FAIL, centred)])
  = (reading_directinput :: Api (SetProperty_BufferSize 64)
       :: Cout ("Device disconnected or error." ++ nl) :: release_all, Some 0)
  /\ Native.RunDirectInputReader 42 1 setup_ok [true; true]
       (Native.mkDIFeed [Native.WAIT_FAILED] [] [])
     = (reading_directinput :: Api (SetProperty_BufferSize 64)
          :: Cerr ("WaitForSingleObject failed." ++ nl) :: release_all, Some 0).
Proof. split; reflexivity. Qed.

(** ** The command line *)

Example stoi_examples :
  Native.stoi "abc" = None
  /\ Native.stoi "" = None
  /\ Native.stoi "5" = Some 5
  /\ Native.stoi "-1" = Some (-1)
  /\ Native.stoi " +12xyz" = Some 12
  /\ Native.stoi "2147483647" = Some 2147483647
  /\ Native.stoi "2147483648" = None.
Proof. repeat split. Qed.

Lemma read_digits_step acc c r d :
  Native.digit_value c = Some d ->
  Native.read_digits acc (String c r)
  = Native.read_digits
      (Some (10 * match acc with Some a => a | None => 0 end + d)) r.
Proof. intros H. cbn [Native.read_digits]. now rewrite H. Qed.

Lemma read_digits_uint d acc :
  Native.read_digits (Some acc) (DecimalString.NilEmpty.string_of_uint d)
  = Some (uint_val acc d).
Proof.
  revert acc; induction d; intros acc; cbn [DecimalString.NilEmpty.string_of_uint uint_val];
    [reflexivity|..];
    (erewrite read_digits_step by reflexivity); apply IHd.
Qed.

Lemma read_digits_uint_none d :
  d <> Decimal.Nil ->
  Native.read_digits None (DecimalString.NilEmpty.string_of_uint d)
  = Some (uint_val 0 d).
Proof.
  destruct d; intros H; [contradiction|..];
    cbn [DecimalString.NilEmpty.string_of_uint uint_val];
    (erewrite read_digits_step by reflexivity); apply read_digits_uint.
Qed.

Lemma uint_val_pos d p : uint_val (Zpos p) d = Zpos (Pos.of_uint_acc d p).
Proof.
  revert p; induction d; intros p; cbn [uint_val Pos.of_uint_acc]; [reflexivity|..];
    match goal with
    | |- uint_val ?z _ = Zpos (Pos.of_uint_acc _ ?q) =>
        replace z with (Zpos q) by lia
    end; apply IHd.
Qed.

Lemma uint_val_zero d : uint_val 0 d = Z.of_N (Pos.of_uint d).
Proof.
  induction d; cbn [uint_val Pos.of_uint]; [reflexivity | exact IHd |..];
    match goal with
    | |- uint_val ?z _ = _ => change z with (Zpos (Z.to_pos z))
    end; cbn [Z.to_pos Z.mul Z.add Pos.mul Pos.add]; apply uint_val_pos.
Qed.

Lemma stoi_unsigned c r :
  Native.digit_value c <> None ->
  Native.stoi (String c r)
  = match Native.read_digits None (String c r) with
    | None => None
    | Some v => in_int_range v
    end.
Proof.
  destruct c as [[] [] [] [] [] [] [] []]; intros H;
    try (exfalso; apply H; reflexivity); reflexivity.
Qed.

Lemma string_of_uint_head d :
  d <> Decimal.Nil ->
  exists c r, DecimalString.NilEmpty.string_of_uint d = String c r
              /\ Native.digit_value c <> None.
Proof.
  destruct d; intros H; [contradiction|..]; simpl; eexists _, _;
    (split; [reflexivity | discriminate]).
Qed.

(** Reading back a printed index. *)
Lemma stoi_to_string_nat (k : nat) :
  Z.of_nat k <= Native.INT_MAX ->
  Native.stoi (to_string (Z.of_nat k)) = Some (Z.of_nat k).
Proof.
  intros Hk. destruct (Z.of_nat k) as [|p|p] eqn:E; [reflexivity| |lia].
  unfold to_string. cbn [Z.to_int DecimalString.NilZero.string_of_int].
  pose proof (DecimalPos.Unsigned.to_uint_nonnil p) as Hn.
  assert (Es : DecimalString.NilZero.string_of_uint (Pos.to_uint p)
               = DecimalString.NilEmpty.string_of_uint (Pos.to_uint p))
    by (destruct (Pos.to_uint p); [contradiction|..]; reflexivity).
  rewrite Es.
  destruct (string_of_uint_head _ Hn) as [c [r [Ec Hc]]].
  pose proof (read_digits_uint_none _ Hn) as R.
  rewrite Ec in *. rewrite (stoi_unsigned c r Hc), R.
  rewrite uint_val_zero, DecimalPos.Unsigned.of_to. cbn [Z.of_N].
  unfold in_int_range.
  replace ((Native.INT_MIN <=? Zpos p) && (Zpos p <=? Native.INT_MAX)) with true;
    [reflexivity|].
  symmetry. apply andb_true_iff. rewrite !Z.leb_le.
  unfold Native.INT_MIN. split; [lia | exact Hk].
Qed.

Lemma nth_error_nth_default {A : Type} (l : list A) k d x :
  nth_error l k = Some x -> nth k l d = x.
Proof. intros H. now apply nth_error_nth. Qed.

Lemma read_digits_uint_app d acc junk :
  Native.read_digits (Some acc) (DecimalString.NilEmpty.string_of_uint d ++ junk)
  = Native.read_digits (Some (uint_val acc d)) junk.
Proof.
  revert acc; induction d; intros acc;
    cbn [DecimalString.NilEmpty.string_of_uint uint_val append];
    [reflexivity|..];
    (erewrite read_digits_step by reflexivity); apply IHd.
Qed.

Lemma read_digits_stops acc junk :
  starts_with_digit junk = false -> Native.read_digits acc junk = acc.
Proof.
  destruct junk as [|c r]; [reflexivity|]. cbn [starts_with_digit Native.read_digits].
  unfold is_digit, Native.digit_value. cbv zeta. now intros ->.
Qed.

(** [std::stoi] reads a printed index back and ignores what follows its
    digits. *)
Lemma stoi_to_string_junk (k : nat) (junk : string) :
  Z.of_nat k <= Native.INT_MAX ->
  starts_with_digit junk = false ->
  Native.stoi (to_string (Z.of_nat k) ++ junk) = Some (Z.of_nat k).
Proof.
  intros Hk Hj. destruct (Z.of_nat k) as [|p|p] eqn:E; [| |lia].
  - change (to_string 0 ++ junk)%string with (String "0" junk).
    rewrite stoi_unsigned by discriminate.
    erewrite read_digits_step by reflexivity.
    now rewrite read_digits_stops.
  - unfold to_string. cbn [Z.to_int DecimalString.NilZero.string_of_int].
    pose proof (DecimalPos.Unsigned.to_uint_nonnil p) as Hn.
    assert (Es : DecimalString.NilZero.string_of_uint (Pos.to_uint p)
                 = DecimalString.NilEmpty.string_of_uint (Pos.to_uint p))
      by (destruct (Pos.to_uint p); [contradiction|..]; reflexivity).
    rewrite Es.
    assert (R : Native.read_digits None
                  (DecimalString.NilEmpty.string_of_uint (Pos.to_uint p) ++ junk)
                = Some (uint_val 0 (Pos.to_uint p))).
    { destruct (Pos.to_uint p); [contradiction|..];
        cbn [DecimalString.NilEmpty.string_of_uint uint_val append];
        (erewrite read_digits_step by reflexivity);
        rewrite read_digits_uint_app; now apply read_digits_stops. }
    destruct (string_of_uint_head _ Hn) as [c [r [Ec Hc]]].
    rewrite Ec in *. cbn [append] in *. rewrite (stoi_unsigned c _ Hc), R.
    rewrite uint_val_zero, DecimalPos.Unsigned.of_to. cbn [Z.of_N].
    unfold in_int_range.
    replace ((Native.INT_MIN <=? Zpos p) && (Zpos p <=? Native.INT_MAX)) with true;
      [reflexivity|].
    symmetry. apply andb_true_iff. rewrite !Z.leb_le.
    unfold Native.INT_MIN. split; [lia | exact Hk].
Qed.

Lemma stdout_of_Cout (l : list string) : stdout_of (map Cout l) = l.
Proof. induction l as [|s l IH]; simpl; [|rewrite IH]; reflexivity. Qed.

Lemma stdout_of_enumeration hw : stdout_of (directinput_enumeration hw) = [].
Proof.
  unfold directinput_enumeration.
  now destruct (Native.SUCCEEDED (Native.DirectInput8Create hw)).
Qed.

Lemma nth_error_device_lines utf8 (ds : list Native.DeviceInfo) :
  forall from k d,
    nth_error ds k = Some d ->
    nth_error (device_lines utf8 from ds) k = Some (device_line utf8 (from + k) d).
Proof.
  unfold device_lines.
  induction ds as [|d0 ds IH]; intros from k d H; [destruct k; discriminate|].
  destruct k as [|k]; simpl in *.
  - injection H as ->. now rewrite Nat.add_0_r.
  - rewrite (IH (S from) k d H). do 2 f_equal. lia.
Qed.

Section CommandLine.

Variable towlower : wchar_t -> wchar_t.
Variable WideCharToMultiByte_UTF8 : wstring -> string.

Local Abbreviation main := (Native.main towlower WideCharToMultiByte_UTF8).
Local Abbreviation PrintUsageAndList :=
  (Native.PrintUsageAndList towlower WideCharToMultiByte_UTF8).
Local Abbreviation EnumerateDevices := (Native.EnumerateDevices towlower).
Local Abbreviation utf8 := (Native.WToUtf8 WideCharToMultiByte_UTF8).

Lemma EnumerateDevices_nth hw (i : Z) :
  0 <= i < Z.of_nat (List.length (EnumerateDevices hw)) ->
  Native.index (nth (Z.to_nat i) (EnumerateDevices hw) Native.default_device) = i.
Proof.
  intros Hi.
  rewrite <- (map_nth Native.index), EnumerateDevices_indices.
  change (Native.index Native.default_device) with (Z.of_nat 0).
  rewrite map_nth, seq_nth by lia. lia.
Qed.

Lemma print_device_lines (ds : list Native.DeviceInfo) :
  forall from,
    map Native.index ds = map Z.of_nat (seq from (List.length ds)) ->
    map (Native.print_device WideCharToMultiByte_UTF8) ds
    = map Cout (device_lines utf8 from ds).
Proof.
  unfold device_lines.
  induction ds as [|d ds IH]; intros from H; simpl in *; [reflexivity|].
  injection H as Hd Hds. f_equal; [|apply IH; exact Hds].
  unfold Native.print_device, device_line. cbn [fst snd]. rewrite Hd. reflexivity.
Qed.

(** The listing, text by text. *)
Lemma PrintUsageAndList_text hw :
  PrintUsageAndList hw
  = usage_lines ++ directinput_enumeration hw
    ++ map Cout (catalog_text utf8 (EnumerateDevices hw)).
Proof.
  unfold Native.PrintUsageAndList, usage_lines, catalog_text.
  change (Native.EnumerateDevices_calls hw) with (directinput_enumeration hw).
  pose proof (EnumerateDevices_indices towlower hw) as E.
  destruct (EnumerateDevices hw) as [|d ds]; [reflexivity|].
  cbv beta match. rewrite (print_device_lines (d :: ds) 0 E). reflexivity.
Qed.

Lemma selected_text (sel : Native.DeviceInfo) :
  ("Selected [" ++ to_string (Native.index sel) ++ "] "
   ++ Native.kind_label (Native.kind sel) ++ "  " ++ utf8 (Native.name sel) ++ nl)%string
  = selected_line utf8 (Native.index sel) sel.
Proof. reflexivity. Qed.

(** C7, amended.  Without an argument [main] prints the usage and the
    catalog and returns 0; the catalog is the line "No game controllers
    detected." when nothing is found, and otherwise a heading and one line
    per device that shows its position in brackets, its kind and its name.
    When [std::stoi] reads no [int] from the first argument (no digit after
    optional white space and sign, or a value that does not fit), or reads
    one that is negative or not below the catalog size, [main] prints the
    error on the error stream, then the usage and the catalog, and returns 1.
    When it reads an index inside the catalog, [main] prints which entry is
    selected, runs the stream loop of that entry and returns whatever the
    loop returns.  [std::stoi] reads the leading integer: what follows the
    digits of the argument is ignored. *)
Theorem cli_contract (argv : list string) (w : Native.World) :
  (forall hw,
      PrintUsageAndList hw
      = [Cout ("Usage: JoystickInput <deviceIndex>" ++ nl);
         Cout ("No argument: lists available devices with their integer index."
               ++ nl ++ nl)]
        ++ directinput_enumeration hw
        ++ map Cout (catalog_text utf8 (EnumerateDevices hw)))
  /\ ((List.length argv < 2)%nat ->
      main argv w
      = (Api SetConsoleCtrlHandler :: PrintUsageAndList (Native.w_listing w), Some 0))
  /\ (forall prog arg1 rest,
      argv = prog :: arg1 :: rest ->
      Native.stoi arg1 = None ->
      main argv w
      = (Api SetConsoleCtrlHandler
           :: Cerr ("Invalid argument. Must be an integer device index." ++ nl ++ nl)
           :: PrintUsageAndList (Native.w_listing w), Some 1))
  /\ (forall prog arg1 rest i,
      argv = prog :: arg1 :: rest ->
      Native.stoi arg1 = Some i ->
      i < 0 \/ Z.of_nat (List.length (EnumerateDevices (Native.w_enumerate w))) <= i ->
      main argv w
      = (Api SetConsoleCtrlHandler
           :: directinput_enumeration (Native.w_enumerate w)
           ++ Cerr ("Device index out of range." ++ nl ++ nl)
           :: PrintUsageAndList (Native.w_listing w), Some 1))
  /\ (forall prog arg1 rest i,
      argv = prog :: arg1 :: rest ->
      Native.stoi arg1 = Some i ->
      0 <= i < Z.of_nat (List.length (EnumerateDevices (Native.w_enumerate w))) ->
      let sel := nth (Z.to_nat i) (EnumerateDevices (Native.w_enumerate w))
                     Native.default_device in
      Native.index sel = i
      /\ snd (main argv w) = snd (stream_loop sel w)
      /\ fst (main argv w)
         = Api SetConsoleCtrlHandler
           :: directinput_enumeration (Native.w_enumerate w)
           ++ Cout (selected_line utf8 i sel)
           :: around_loop sel (stream_loop sel w))
  /\ (forall (k : nat) (junk : string),
      Z.of_nat k <= Native.INT_MAX ->
      starts_with_digit junk = false ->
      Native.stoi (to_string (Z.of_nat k) ++ junk) = Some (Z.of_nat k)).
Proof.
  split; [exact PrintUsageAndList_text|].
  split.
  { intros Hlen. destruct argv as [|a0 [|a1 rest]]; simpl in Hlen; try lia; reflexivity. }
  split.
  { intros prog arg1 rest -> E. unfold Native.main. now rewrite E. }
  split.
  { intros prog arg1 rest i -> E Hi. unfold Native.main. rewrite E. cbv zeta.
    replace ((i <? 0) || (Z.of_nat (List.length (EnumerateDevices (Native.w_enumerate w))) <=? i))
      with true; [reflexivity|].
    symmetry. apply orb_true_iff. rewrite Z.ltb_lt, Z.leb_le. exact Hi. }
  split; [|intros k junk; apply stoi_to_string_junk].
  intros prog arg1 rest i -> E Hi sel.
  assert (Hs : Native.index sel = i) by (apply EnumerateDevices_nth; exact Hi).
  split; [exact Hs|].
  unfold Native.main. rewrite E. cbv zeta.
  replace ((i <? 0) || (Z.of_nat (List.length (EnumerateDevices (Native.w_enumerate w))) <=? i))
    with false
    by (symmetry; apply orb_false_iff; rewrite Z.ltb_ge, Z.leb_gt; lia).
  fold sel. rewrite (selected_text sel), Hs.
  change (Native.EnumerateDevices_calls (Native.w_enumerate w))
    with (directinput_enumeration (Native.w_enumerate w)).
  unfold stream_loop, around_loop.
  destruct (Native.kind sel).
  - destruct (Native.RunXInputReader _ _ _) as [tr rc]. split; reflexivity.
  - destruct (Native.RunDirectInputReader _ _ _ _ _) as [tr [rc|]];
      cbn [fst snd]; (split; [reflexivity|]); [reflexivity|].
    now rewrite app_nil_r.
Qed.

End CommandLine.

(** C7, as stated, fails: "0abc" is not an integer, yet [std::stoi] reads
    the 0 it begins with, and [main] selects the first catalog entry, runs
    its stream loop and returns the loop's code 0 without any error message,
    exactly as it does for "0". *)
Lemma cli_contract_counterexample :
  integer_text "0abc" = false
  /\ Native.main towlower_C utf8_of_ascii ["JoystickInput"; "0abc"]
                 (sample_world two_devices)
     = Native.main towlower_C utf8_of_ascii ["JoystickInput"; "0"]
                   (sample_world two_devices)
  /\ snd (Native.main towlower_C utf8_of_ascii ["JoystickInput"; "0abc"]
                      (sample_world two_devices)) = Some 0
  /\ stderr_of (fst (Native.main towlower_C utf8_of_ascii ["JoystickInput"; "0abc"]
                                 (sample_world two_devices))) = []
  /\ nth_error (stdout_of (fst (Native.main towlower_C utf8_of_ascii
                                            ["JoystickInput"; "0abc"]
                                            (sample_world two_devices)))) 0
     = Some ("Selected [0] XInput     XInput Controller 0" ++ nl)%string.
Proof. repeat split; vm_compute; reflexivity. Qed.

Lemma cli_contract_witness :
  Native.main towlower_C utf8_of_ascii ["JoystickInput"] (sample_world nothing_attached)
  = (Api SetConsoleCtrlHandler
       :: usage_lines
       ++ [Api EnumDevices_GAMECTRL; Api Release_di;
           Cout ("No game controllers detected." ++ nl)], Some 0)
  /\ snd (Native.main towlower_C utf8_of_ascii ["JoystickInput"; "abc"]
                      (sample_world two_devices)) = Some 1
  /\ snd (Native.main towlower_C utf8_of_ascii ["JoystickInput"; "5"]
                      (sample_world two_devices)) = Some 1
  /\ snd (Native.main towlower_C utf8_of_ascii ["JoystickInput"; "1"]
                      (sample_world two_devices)) = Some 0
  /\ Native.stoi "1.5" = Some 1.
Proof.
  split; [|split; [|split; [|split]]].
  - pose proof (cli_contract towlower_C utf8_of_ascii ["JoystickInput"]
                  (sample_world nothing_attached)) as [Ht [H0 _]].
    rewrite H0 by (simpl; lia). simpl Native.w_listing.
    now rewrite (Ht nothing_attached).
  - pose proof (cli_contract towlower_C utf8_of_ascii ["JoystickInput"; "abc"]
                  (sample_world two_devices)) as [_ [_ [H _]]].
    now rewrite (H _ _ _ eq_refl eq_refl).
  - pose proof (cli_contract towlower_C utf8_of_ascii ["JoystickInput"; "5"]
                  (sample_world two_devices)) as [_ [_ [_ [H _]]]].
    rewrite (H _ _ _ 5 eq_refl eq_refl); [reflexivity|].
    right. vm_compute. discriminate.
  - pose proof (cli_contract towlower_C utf8_of_ascii ["JoystickInput"; "1"]
                  (sample_world two_devices)) as [_ [_ [_ [_ [H _]]]]].
    destruct (H _ _ _ 1 eq_refl eq_refl) as [_ [Hrc _]].
    + split; [lia | vm_compute; reflexivity].
    + rewrite Hrc. reflexivity.
  - pose proof (cli_contract towlower_C utf8_of_ascii [] (sample_world two_devices))
      as [_ [_ [_ [_ [_ H]]]]].
    apply (H 1%nat ".5"); [vm_compute; discriminate | reflexivity].
Defined.

(** ** State formatting *)

Lemma append_nil_r (s : string) : (s ++ "")%string = s.
Proof. induction s as [|c s IH]; simpl; [|rewrite IH]; reflexivity. Qed.

Lemma append_assoc (s t u : string) : ((s ++ t) ++ u)%string = (s ++ t ++ u)%string.
Proof. induction s as [|c s IH]; simpl; [|rewrite IH]; reflexivity. Qed.

Lemma appends_insert s : appends (insert s).
Proof. intros os. reflexivity. Qed.

Lemma appends_str s : appends (str s).
Proof. apply appends_insert. Qed.

Lemma appends_chr c : appends (chr c).
Proof. apply appends_insert. Qed.

Lemma appends_int z : appends (int z).
Proof. intros os. reflexivity. Qed.

Lemma appends_uint z : appends (uint z).
Proof. intros os. reflexivity. Qed.

Lemma appends_setw w : appends (setw w).
Proof. intros os. unfold setw. simpl. now rewrite append_nil_r. Qed.

Lemma appends_setfill c : appends (setfill c).
Proof. intros os. unfold setfill. simpl. now rewrite append_nil_r. Qed.

Lemma appends_std_hex : appends std_hex.
Proof. intros os. unfold std_hex. simpl. now rewrite append_nil_r. Qed.

Lemma appends_std_dec : appends std_dec.
Proof. intros os. unfold std_dec. simpl. now rewrite append_nil_r. Qed.

Lemma appends_id : appends (fun os => os).
Proof. intros [b c w t]. simpl. now rewrite append_nil_r. Qed.

Lemma appends_compose f g : appends f -> appends g -> appends (fun os => g (f os)).
Proof.
  intros Hf Hg os.
  pose proof (Hf (restart os)) as E0. change (restart (restart os)) with (restart os) in E0.
  simpl in E0.
  rewrite (Hf os).
  destruct (f (restart os)) as [b1 c1 w1 t1]. simpl in *.
  rewrite (Hg (mkStream b1 c1 w1 (written os ++ t1))).
  rewrite (Hg (mkStream b1 c1 w1 t1)).
  unfold restart. simpl. now rewrite append_assoc.
Qed.

Lemma appends_fold {A : Type} (step : ostream -> A -> ostream) (l : list A) :
  (forall a, appends (fun os => step os a)) ->
  appends (fold_left step l).
Proof.
  intros H. induction l as [|a l IH]; simpl.
  - apply appends_id.
  - exact (appends_compose (fun os => step os a) (fold_left step l) (H a) IH).
Qed.

Ltac appends_step :=
  lazymatch goal with
  | |- appends (fun os => ?g (@?f os)) =>
      let H := fresh in
      pose proof (appends_compose f g) as H; apply H; clear H
  | |- appends (fun os => os) => apply appends_id
  | |- appends (str _) => apply appends_str
  | |- appends (chr _) => apply appends_chr
  | |- appends (int _) => apply appends_int
  | |- appends (uint _) => apply appends_uint
  | |- appends (setw _) => apply appends_setw
  | |- appends (setfill _) => apply appends_setfill
  | |- appends ?f =>
      first [ unify f std_hex; apply appends_std_hex
            | unify f std_dec; apply appends_std_dec ]
  end.

Ltac appends_chain := repeat appends_step.

Lemma appends_PrintXInputState s : appends (Native.PrintXInputState s).
Proof. unfold Native.PrintXInputState. cbv zeta. appends_chain. Qed.

Lemma appends_print_pov js i : appends (fun os => Native.print_pov js os i).
Proof.
  unfold Native.print_pov. cbv zeta.
  destruct (nth i (Native.rgdwPOV js) 0 =? 0xFFFFFFFF); appends_chain.
Qed.

Lemma appends_print_button js i : appends (fun os => Native.print_button js os i).
Proof. unfold Native.print_button. appends_chain. Qed.

Lemma appends_PrintDIState js : appends (Native.PrintDIState js).
Proof.
  unfold Native.PrintDIState. cbv zeta.
  appends_step; [|appends_step].
  appends_step; [|apply appends_fold; intros; apply appends_print_button].
  appends_step; [|appends_step].
  appends_step; [|apply appends_fold; intros; apply appends_print_pov].
  appends_chain.
Qed.

Lemma restart_initial os : initial_format os -> restart os = fresh.
Proof. destruct os as [b c w t]. unfold initial_format. simpl. now intros [-> [-> ->]]. Qed.

Lemma fold_print_pov_format js l os :
  initial_format os -> initial_format (fold_left (Native.print_pov js) l os).
Proof.
  revert os; induction l as [|i l IH]; intros os H; simpl; [exact H|].
  apply IH. unfold Native.print_pov. destruct H as [H1 [H2 H3]].
  destruct (nth i (Native.rgdwPOV js) 0 =? 0xFFFFFFFF); simpl; now repeat split.
Qed.

Lemma fold_print_button_format js l os :
  initial_format os -> initial_format (fold_left (Native.print_button js) l os).
Proof.
  revert os; induction l as [|i l IH]; intros os H; simpl; [exact H|].
  apply IH. destruct H as [H1 [H2 H3]]. now repeat split.
Qed.

Lemma PrintXInputState_format s : initial_format (Native.PrintXInputState s fresh).
Proof. repeat split. Qed.

Lemma str_format s os : initial_format os -> initial_format (str s os).
Proof. intros [H1 [H2 H3]]. split; [exact H1|]. split; [exact H2 | reflexivity]. Qed.

Lemma PrintDIState_format js : initial_format (Native.PrintDIState js fresh).
Proof.
  unfold Native.PrintDIState. cbv zeta.
  apply str_format, fold_print_button_format, str_format, fold_print_pov_format,
        str_format.
  split; [reflexivity|]. split; reflexivity.
Qed.

(** A formatter called on a stream in its initial format state appends the
    text it would write to a fresh stream and leaves the format state
    initial. *)
Lemma formatter_on_stream (print : ostream -> ostream) os :
  appends print ->
  initial_format (print fresh) ->
  initial_format os ->
  print os = mkStream dec " " 0 (written os ++ written_by print).
Proof.
  intros A [F1 [F2 F3]] I. rewrite (A os), (restart_initial os I).
  unfold written_by. now rewrite F1, F2, F3.
Qed.

Lemma appends_printer c : appends (printer c).
Proof. destruct c; [apply appends_PrintXInputState | apply appends_PrintDIState]. Qed.

Lemma printer_format c : initial_format (printer c fresh).
Proof. destruct c; [apply PrintXInputState_format | apply PrintDIState_format]. Qed.

(** Whatever was printed before, each formatter call adds the text of its
    own snapshot. *)
Lemma print_all_text calls os :
  initial_format os ->
  print_all calls os
  = mkStream dec " " 0
      (written os ++ join (map (fun c => written_by (printer c)) calls)).
Proof.
  revert os; induction calls as [|c calls IH]; intros os I; simpl.
  - rewrite append_nil_r. destruct os as [b f w t].
    destruct I as [I1 [I2 I3]]. simpl in *. now subst.
  - unfold print_all in *. simpl.
    rewrite (formatter_on_stream (printer c) os (appends_printer c)
                                 (printer_format c) I).
    rewrite IH by (repeat split). simpl. now rewrite append_assoc.
Qed.

(** C9.  The formatters are functions of the snapshot alone: equal
    snapshots give equal text.  The browser formatter builds its string from
    the index, the axes and the buttons only.  The native formatters, called
    on the output stream in its initial format state, append a text that
    depends on the snapshot only and leave the format state initial, so that
    a sequence of calls writes the texts of its snapshots one after the
    other.  None of them fails on a snapshot without axes or buttons: the
    browser formatter renders the two section headers with nothing in them,
    and the native formatters render a zero-initialised structure as a
    complete line. *)
Theorem format_is_pure (double : Type) (axis_to_string : double -> string)
    (s1 s2 : @Web.GamepadState double)
    (x1 x2 : Native.XINPUT_STATE) (j1 j2 : Native.DIJOYSTATE2)
    (cout1 cout2 : ostream) :
  s1 = s2 -> x1 = x2 -> j1 = j2 ->
  initial_format cout1 -> initial_format cout2 ->
  Web.FormatGamepadState axis_to_string s1 = Web.FormatGamepadState axis_to_string s2
  /\ Native.PrintXInputState x1 cout1
     = mkStream dec " " 0 (written cout1 ++ written_by (Native.PrintXInputState x2))
  /\ Native.PrintXInputState x2 cout2
     = mkStream dec " " 0 (written cout2 ++ written_by (Native.PrintXInputState x1))
  /\ Native.PrintDIState j1 cout1
     = mkStream dec " " 0 (written cout1 ++ written_by (Native.PrintDIState j2))
  /\ Native.PrintDIState j2 cout2
     = mkStream dec " " 0 (written cout2 ++ written_by (Native.PrintDIState j1))
  /\ (forall calls,
        print_all calls cout1
        = mkStream dec " " 0
            (written cout1 ++ join (map (fun c => written_by (printer c)) calls)))
  /\ (forall index values stamp values' stamp',
        Web.FormatGamepadState axis_to_string
          (Web.mkGamepadState index (Web.axes s1) (Web.buttons s1) values stamp)
        = Web.FormatGamepadState axis_to_string
            (Web.mkGamepadState index (Web.axes s1) (Web.buttons s1) values' stamp'))
  /\ (forall index values stamp,
        Web.FormatGamepadState axis_to_string
          (Web.mkGamepadState index [] [] values stamp)
        = "Gamepad " ++ to_string index ++ ": AXES: | BUTTONS: ")%string
  /\ written_by (Native.PrintXInputState idle_state)
     = ("LX=     0  LY=     0  RX=     0  RY=     0  LT=  0  RT=  0  "
        ++ "Buttons=0x0000  DPad(U/D/L/R)=0/0/0/0" ++ nl)%string
  /\ written_by (Native.PrintDIState centred)
     = ("AXES: lX=     0 lY=     0 lZ=     0 lRx=     0 lRy=     0 lRz=     0 "
        ++ "S0=     0 S1=     0 | POV:    0    0    0    0 "
        ++ "| BTN: 00000000000000000000000000000000" ++ nl)%string.
Proof.
  intros -> -> -> I1 I2.
  split; [reflexivity|].
  split; [apply formatter_on_stream;
          [apply appends_PrintXInputState | apply PrintXInputState_format | exact I1]|].
  split; [apply formatter_on_stream;
          [apply appends_PrintXInputState | apply PrintXInputState_format | exact I2]|].
  split; [apply formatter_on_stream;
          [apply appends_PrintDIState | apply PrintDIState_format | exact I1]|].
  split; [apply formatter_on_stream;
          [apply appends_PrintDIState | apply PrintDIState_format | exact I2]|].
  split; [intros calls; apply print_all_text; exact I1|].
  repeat split.
Qed.

Lemma format_is_pure_witness :
  Web.FormatGamepadState (fun _ : unit => "0.000000")
    (Web.mkGamepadState 3 [] [] [] None)
  = "Gamepad 3: AXES: | BUTTONS: "
  /\ Native.PrintDIState centred
       (Native.PrintXInputState idle_state fresh)
     = mkStream dec " " 0
         (written_by (Native.PrintXInputState idle_state)
          ++ written_by (Native.PrintDIState centred)).
Proof.
  pose proof (format_is_pure unit (fun _ => "0.000000")
                (Web.mkGamepadState 3 [] [] [] None) _ idle_state _ centred _
                (Native.PrintXInputState idle_state fresh) fresh
                eq_refl eq_refl eq_refl
                (PrintXInputState_format idle_state)
                (conj eq_refl (conj eq_refl eq_refl)))
    as [_ [_ [_ [Hd [_ [_ [_ [H _]]]]]]]].
  split; [exact (H 3 [] None) | exact Hd].
Defined.

(** ** The browser surface *)

(** No call changes the globals when the sampling call answers as
    documented: the list stays empty, so [StartStreaming] finds every index
    out of its range. *)
Lemma call_as_documented_idle {double : Type} (axis_to_string : double -> string)
    (c : @Web.Call double) :
  call_as_documented c = true ->
  Web.call axis_to_string Web.initial c = Web.initial.
Proof.
  destruct c as [b|b i| |b| |]; cbn [call_as_documented Web.call]; intros H;
    try reflexivity.
  - unfold Web.ListGamepads. cbv zeta. cbn [fst snd].
    now rewrite (UpdateGamepadList_status b H).
  - unfold Web.StartStreaming. cbv zeta. rewrite (UpdateGamepadList_status b H).
    cbn [List.length Z.of_nat].
    destruct (Z.ltb_spec i 0); destruct (Z.leb_spec 0 i); try lia; reflexivity.
Qed.

Lemma calls_as_documented_idle {double : Type} (axis_to_string : double -> string)
    (calls : list (@Web.Call double)) :
  forallb call_as_documented calls = true ->
  Web.after axis_to_string calls = Web.initial.
Proof.
  unfold Web.after. induction calls as [|c calls IH]; intros H; [reflexivity|].
  cbn [forallb] in H. apply andb_true_iff in H as [Hc Hcalls].
  cbn [fold_left]. rewrite (call_as_documented_idle axis_to_string c Hc).
  exact (IH Hcalls).
Qed.



Lemma call_preserves (double : Type) (axis_to_string : double -> string)
    (g : Web.Globals) (c : @Web.Call double) :
  streaming_iff_selected g ->
  streaming_iff_selected (Web.call axis_to_string g c).
Proof.
  unfold streaming_iff_selected. intros Inv. destruct c as [b|b i| |b| |]; simpl.
  - exact Inv.
  - unfold Web.StartStreaming.
    destruct (Z.ltb_spec i 0) as [Hneg|Hpos]; simpl; [exact Inv|].
    destruct (Z.of_nat (List.length (Web.UpdateGamepadList b)) <=? i); simpl;
      [exact Inv | tauto].
  - split; [discriminate | lia].
  - unfold Web.UpdateGamepadState.
    destruct (negb (Web.g_streaming g) || (Web.g_selectedGamepad g <? 0));
      simpl; [exact Inv|].
    destruct (Web.axes _); destruct (Web.buttons _); exact Inv.
  - exact Inv.
  - exact Inv.
Qed.

Lemma calls_preserve (double : Type) (axis_to_string : double -> string)
    (calls : list (@Web.Call double)) (g : Web.Globals) :
  streaming_iff_selected g ->
  streaming_iff_selected (fold_left (Web.call axis_to_string) calls g).
Proof.
  revert g; induction calls as [|c calls IH]; intros g Inv; simpl; [exact Inv|].
  apply IH, call_preserves, Inv.
Qed.

(** C10.  After any sequence of calls of the exported functions, starting
    from the initial globals, the streaming flag is set exactly when the
    selected index is not negative; so [IsStreaming] returns 1 exactly when
    [GetSelectedGamepad] returns a value that is at least 0, and returns 0
    otherwise. *)
Theorem streaming_flag_invariant (double : Type) (axis_to_string : double -> string)
    (calls : list (@Web.Call double)) :
  let g := Web.after axis_to_string calls in
  (Web.g_streaming g = true <-> 0 <= Web.g_selectedGamepad g)
  /\ (Web.IsStreaming g = 1 <-> Web.GetSelectedGamepad g >= 0)
  /\ (Web.IsStreaming g = 0 \/ Web.IsStreaming g = 1).
Proof.
  intros g.
  assert (Inv : streaming_iff_selected g).
  { apply calls_preserve. split; [discriminate | simpl; lia]. }
  unfold streaming_iff_selected in Inv. split; [exact Inv|].
  unfold Web.IsStreaming, Web.GetSelectedGamepad.
  destruct (Web.g_streaming g); split; try tauto.
  - split; [intros _; apply Z.le_ge; now apply Inv | reflexivity].
  - split; [discriminate|]. intros H. apply Z.ge_le in H. apply Inv in H. discriminate.
Qed.

(** * Further properties *)

(** ** The catalog in full *)

Lemma probe_xinput_entries hw users acc :
  fold_left (Native.probe_xinput_user hw) users acc
  = acc ++ map xinput_entry (filter (Native.IsXInputConnected hw) users).
Proof.
  revert acc; induction users as [|u users IH]; intros acc; simpl.
  - now rewrite app_nil_r.
  - rewrite IH. unfold Native.probe_xinput_user.
    destruct (Native.IsXInputConnected hw u); simpl; [|reflexivity].
    now rewrite <- app_assoc.
Qed.

Lemma callback_entries towlower insts acc :
  fold_left (Native.EnumDIEnumDevicesCallback towlower) insts acc
  = acc ++ map directinput_entry
             (filter (fun i => negb (Native.IsLikelyXInputDuplicate towlower i)) insts).
Proof.
  revert acc; induction insts as [|i insts IH]; intros acc; simpl.
  - now rewrite app_nil_r.
  - rewrite IH. unfold Native.EnumDIEnumDevicesCallback.
    destruct (Native.IsLikelyXInputDuplicate towlower i); simpl; [reflexivity|].
    now rewrite <- app_assoc.
Qed.

Lemma number_from_app a l1 l2 :
  number_from a (l1 ++ l2)
  = number_from a l1 ++ number_from (a + List.length l1) l2.
Proof.
  revert a; induction l1 as [|d l1 IH]; intros a; simpl.
  - now rewrite Nat.add_0_r.
  - rewrite IH. now rewrite Nat.add_succ_r.
Qed.

Lemma number_from_fields a l :
  map Native.kind (number_from a l) = map Native.kind l
  /\ map Native.name (number_from a l) = map Native.name l
  /\ map Native.xinputUser (number_from a l) = map Native.xinputUser l
  /\ map Native.diGuid (number_from a l) = map Native.diGuid l.
Proof.
  revert a; induction l as [|d l IH]; intros a; simpl; [now repeat split|].
  destruct (IH (S a)) as [H1 [H2 [H3 H4]]]. now rewrite H1, H2, H3, H4.
Qed.

Lemma EnumerateDevices_entries towlower hw :
  Native.EnumerateDevices towlower hw
  = number_from 0
      (map xinput_entry (filter (Native.IsXInputConnected hw) xinput_users)
       ++ map directinput_entry
            (filter (fun i => negb (Native.IsLikelyXInputDuplicate towlower i))
                    (enumerated hw))).
Proof.
  unfold Native.EnumerateDevices, enumerated. cbv zeta.
  rewrite index_loop. f_equal.
  destruct (Native.SUCCEEDED (Native.DirectInput8Create hw)).
  - now rewrite callback_entries, probe_xinput_entries.
  - rewrite probe_xinput_entries. simpl. now rewrite app_nil_r.
Qed.

(** X1.  The catalog lists the connected XInput users first, in the order
    0, 1, 2, 3, each with its user index and the name "XInput Controller"
    followed by that index, and after them the enumerated DirectInput
    instances that pass the filter, in the order of enumeration, each with
    its instance GUID and its product name. *)
Theorem catalog_content towlower hw :
  let users := filter (Native.IsXInputConnected hw) xinput_users in
  let insts := filter (fun i => negb (Native.IsLikelyXInputDuplicate towlower i))
                      (enumerated hw) in
  let devices := Native.EnumerateDevices towlower hw in
  map Native.kind devices
  = repeat Native.XInput (List.length users)
    ++ repeat Native.DirectInput (List.length insts)
  /\ map Native.xinputUser (firstn (List.length users) devices) = users
  /\ map Native.name (firstn (List.length users) devices)
     = map (fun i => L "XInput Controller " ++ to_wstring i) users
  /\ map Native.diGuid (skipn (List.length users) devices)
     = map Native.guidInstance insts
  /\ map Native.name (skipn (List.length users) devices)
     = map (fun inst => match Native.tszProductName inst with
                        | Some s => s
                        | None => L "DirectInput Device"
                        end) insts
  /\ (List.length users <= 4)%nat.
Proof.
  intros users insts devices.
  assert (E : devices = number_from 0 (map xinput_entry users)
                        ++ number_from (List.length users) (map directinput_entry insts)).
  { unfold devices. rewrite EnumerateDevices_entries, number_from_app.
    now rewrite length_map. }
  assert (Lx : List.length (number_from 0 (map xinput_entry users)) = List.length users).
  { now rewrite number_from_length, length_map. }
  pose proof (number_from_fields 0 (map xinput_entry users)) as [K1 [N1 [U1 _]]].
  pose proof (number_from_fields (List.length users) (map directinput_entry insts))
    as [K2 [N2 [_ G2]]].
  split.
  { rewrite E, map_app, K1, K2, !map_map. simpl.
    rewrite !map_const. reflexivity. }
  revert E Lx K1 N1 U1 K2 N2 G2.
  set (A := number_from 0 (map xinput_entry users)).
  set (B := number_from (List.length users) (map directinput_entry insts)).
  intros E Lx K1 N1 U1 K2 N2 G2.
  assert (F : firstn (List.length users) devices = A).
  { rewrite E, <- Lx, firstn_app, Nat.sub_diag, firstn_all, firstn_O.
    apply app_nil_r. }
  assert (S : skipn (List.length users) devices = B).
  { rewrite E, <- Lx, skipn_app, Nat.sub_diag, skipn_all, skipn_O. reflexivity. }
  rewrite F, S, U1, N1, G2, N2, !map_map. simpl. rewrite map_id.
  repeat split.
  unfold users. etransitivity; [apply filter_length_le|]. simpl. lia.
Qed.

(** ** The duplicate filter on longer names *)

Lemma contains_extend hay needle pre post :
  contains hay needle -> contains (pre ++ hay ++ post) needle.
Proof.
  intros [a [b ->]]. exists (pre ++ a), (b ++ post).
  now rewrite <- !app_assoc.
Qed.

(** X2.  What the filter excludes stays excluded under any longer name: if
    a product name is taken for an XInput duplicate, so is every name that
    contains it, whatever the instance.  An instance without a product name,
    or with an empty one, is never excluded. *)
Theorem duplicate_filter_closed towlower name pre post guid guid' :
  Native.IsLikelyXInputDuplicate towlower (Native.mkInstance guid (Some name)) = true ->
  Native.IsLikelyXInputDuplicate towlower
    (Native.mkInstance guid' (Some (pre ++ name ++ post))) = true
  /\ Native.IsLikelyXInputDuplicate towlower (Native.mkInstance guid None) = false
  /\ Native.IsLikelyXInputDuplicate towlower (Native.mkInstance guid (Some [])) = false.
Proof.
  intros H. split; [|split; reflexivity].
  apply IsLikelyXInputDuplicate_contains in H.
  apply IsLikelyXInputDuplicate_contains.
  unfold folded_name in *. simpl in *. rewrite !map_app.
  destruct H as [H | [H | H]]; [left | right; left | right; right];
    now apply contains_extend.
Qed.

Lemma duplicate_filter_closed_witness :
  Native.IsLikelyXInputDuplicate towlower_C
    (Native.mkInstance 2 (Some (L "My " ++ L "XInput" ++ L " pad"))) = true.
Proof.
  apply (duplicate_filter_closed towlower_C (L "XInput") (L "My ") (L " pad") 1 2).
  vm_compute. reflexivity.
Defined.

(** ** The stop flag *)

Lemma loads_false events :
  exists m, loads false events = repeat false m.
Proof.
  induction events as [|[c|] events [m IH]]; simpl.
  - now exists 0%nat.
  - exists m. unfold Native.ConsoleCtrlHandler.
    now destruct ((c =? _) || (c =? _) || (c =? _)).
  - exists (S m). simpl. now rewrite IH.
Qed.

(** X3.  The console handler only ever clears [g_Running]: it reports the
    event handled and clears the flag for Ctrl+C, Ctrl+Break and console
    close, and for any other event reports it unhandled and leaves the flag
    alone.  So the values the loop loads, the flag starting true, are a run
    of [true] followed by a run of [false]: once the loop has seen the flag
    false it never sees it true again. *)
Theorem stop_flag_one_shot (events : list FlagEvent) (c : Native.DWORD) (g : bool) :
  (exists n m, loads true events = repeat true n ++ repeat false m)
  /\ (fst (Native.ConsoleCtrlHandler c g) = true <->
      c = Native.CTRL_C_EVENT \/ c = Native.CTRL_BREAK_EVENT
      \/ c = Native.CTRL_CLOSE_EVENT)
  /\ snd (Native.ConsoleCtrlHandler c g)
     = (g && negb (fst (Native.ConsoleCtrlHandler c g)))%bool.
Proof.
  split; [|split].
  - induction events as [|[e|] events [n [m IH]]]; simpl.
    + now exists 0%nat, 0%nat.
    + unfold Native.ConsoleCtrlHandler.
      destruct ((e =? _) || (e =? _) || (e =? _)); simpl.
      * destruct (loads_false events) as [k ->]. now exists 0%nat, k.
      * now exists n, m.
    + exists (S n), m. simpl. now rewrite IH.
  - unfold Native.ConsoleCtrlHandler.
    destruct (Z.eqb_spec c Native.CTRL_C_EVENT);
      destruct (Z.eqb_spec c Native.CTRL_BREAK_EVENT);
      destruct (Z.eqb_spec c Native.CTRL_CLOSE_EVENT); simpl; intuition discriminate.
  - unfold Native.ConsoleCtrlHandler.
    destruct ((c =? _) || (c =? _) || (c =? _)); simpl;
      [now rewrite andb_false_r | now rewrite andb_true_r].
Qed.

(** ** A whole polled run *)

Lemma changes_no_repeat last states :
  no_repeat last (map Native.dwPacketNumber (changes last states)).
Proof.
  revert last; induction states as [|st states IH]; intros last; simpl; [exact I|].
  destruct (Z.eqb_spec (Native.dwPacketNumber st) last) as [E|N]; simpl.
  - rewrite <- E. apply IH.
  - split; [exact N | apply IH].
Qed.

Lemma XInputLoop_run user running :
  forall last polls,
    let reads := successful_reads user running polls in
    let run := Native.XInputLoop user last running polls in
    stdout_of (fst run)
    = map (fun st => written_by (Native.PrintXInputState st)) (changes last reads)
      ++ match snd run with
         | Some 1 => ["Controller disconnected." ++ nl]%string
         | _ => []
         end
    /\ filter is_Sleep (fst run) = repeat (Api (Sleep 2)) (List.length reads).
Proof.
  induction running as [|r running IH]; intros last polls; simpl.
  - now split.
  - destruct r; [|now split].
    destruct polls as [|poll polls]; [now split|].
    destruct (poll user) as [res st] eqn:Ep. simpl.
    destruct (Z.eqb_spec res Native.ERROR_SUCCESS) as [->|N]; simpl; [|now split].
    assert (Es : poll user = (Native.ERROR_SUCCESS, st)) by exact Ep.
    specialize (IH (Native.dwPacketNumber st) polls). cbv zeta in IH.
    destruct IH as [IH1 IH2].
    replace (if negb (Native.dwPacketNumber st =? last)
             then Native.dwPacketNumber st else last)
      with (Native.dwPacketNumber st)
      by (destruct (Z.eqb_spec (Native.dwPacketNumber st) last); simpl; congruence).
    destruct (Native.XInputLoop user (Native.dwPacketNumber st) running polls)
      as [tr rc]. simpl in *.
    split.
    + rewrite stdout_of_app. simpl. rewrite IH1, map_app, <- app_assoc. f_equal.
      now destruct (Native.dwPacketNumber st =? last).
    + rewrite filter_app. simpl. rewrite IH2.
      now destruct (Native.dwPacketNumber st =? last).
Qed.

(** X4.  Over a whole run of the polled reader, the state lines written
    are exactly those of the successful reads whose packet number differs
    from that of the read before (from 0 for the first read), in order, after
    the opening line and before the disconnect notice when the run ends with
    one; so the same packet number is never printed twice in a row and a
    first state numbered 0 is not printed.  Every successful read is followed
    by one 2 ms sleep, printed or not, and nothing else sleeps. *)
Theorem polled_run_output user running polls :
  let reads := successful_reads user running polls in
  let run := Native.RunXInputReader user running polls in
  stdout_of (fst run)
  = ("Reading XInput controller " ++ to_string user ++ " (Ctrl+C to stop)..." ++ nl)%string
    :: map (fun st => written_by (Native.PrintXInputState st)) (changes 0 reads)
    ++ match snd run with
       | Some 1 => ["Controller disconnected." ++ nl]%string
       | _ => []
       end
  /\ no_repeat 0 (map Native.dwPacketNumber (changes 0 reads))
  /\ filter is_Sleep (fst run) = repeat (Api (Sleep 2)) (List.length reads).
Proof.
  intros reads run. unfold run, Native.RunXInputReader.
  pose proof (XInputLoop_run user running 0 polls) as H. cbv zeta in H.
  destruct (Native.XInputLoop user 0 running polls) as [tr rc]. simpl in *.
  destruct H as [H1 H2]. split; [|split].
  - now rewrite H1.
  - apply changes_no_repeat.
  - exact H2.
Qed.

(** ** Preparation and release in the event reader *)

Lemma DrainBuffered_actions data : Forall loop_action (fst (Native.DrainBuffered data)).
Proof.
  induction data as [|[hr n] data IH]; simpl; [constructor|].
  destruct (Native.state_lost hr).
  - destruct (Native.DrainBuffered data). simpl in *. now constructor.
  - destruct (Native.FAILED hr || (n =? 0)); [constructor | exact IH].
Qed.

Lemma DIIteration_actions q : Forall loop_action (fst (fst (Native.DIIteration q))).
Proof.
  unfold Native.DIIteration. destruct (Native.waits q) as [|wait waits]; [constructor|].
  destruct (wait =? Native.WAIT_OBJECT_0).
  - pose proof (DrainBuffered_actions (Native.data q)) as D.
    destruct (Native.DrainBuffered (Native.data q)) as [tr [data'|]]; simpl in *;
      [|exact D].
    destruct (Native.states q) as [|[hr js] states]; simpl; [exact D|].
    destruct (Native.state_lost hr); [|destruct (Native.SUCCEEDED hr)]; simpl;
      try exact D; apply Forall_app; split; try exact D; repeat constructor.
  - destruct (wait =? Native.WAIT_TIMEOUT); simpl; [|repeat constructor].
    destruct (Native.states q) as [|[hr js] states]; simpl; [constructor|].
    destruct (Native.state_lost hr); [|destruct (Native.FAILED hr)]; simpl;
      repeat constructor.
Qed.

Lemma DILoop_actions running :
  forall q, Forall loop_action (fst (Native.DILoop running q)).
Proof.
  induction running as [|r running IH]; intros q; simpl; [constructor|].
  destruct r; [|constructor].
  pose proof (DIIteration_actions q) as A.
  destruct (Native.DIIteration q) as [[tr fl] q']. simpl in A.
  destruct fl; simpl; try exact A.
  specialize (IH q'). destruct (Native.DILoop running q') as [tr' left]. simpl in *.
  apply Forall_app. now split.
Qed.

Lemma count_call_loop p tr :
  p Acquire = false -> Forall loop_action tr -> count_call p tr = 0%nat.
Proof.
  intros Hp F. unfold count_call. induction F as [|a tr Ha F IH]; simpl; [reflexivity|].
  destruct a as [s|s|c]; try exact IH.
  destruct c; simpl in Ha; try contradiction. now rewrite Hp.
Qed.

Lemma count_call_app p tr1 tr2 :
  count_call p (tr1 ++ tr2) = (count_call p tr1 + count_call p tr2)%nat.
Proof. unfold count_call. now rewrite filter_app, length_app. Qed.

(** X5.  A run of the event reader that returns gives 0 or one of the
    codes 2 to 9, and it has released exactly what it had obtained: the
    DirectInput interface once unless its creation failed (code 2), the
    device once unless the run ended at code 2 or 3, the event handle once
    when it got as far as the notification (codes 8, 9 and 0), the
    notification once when it had been set (codes 9 and 0), and the
    acquisition once when the loop was entered (code 0).  Code 0 is returned
    only after every preparatory call has succeeded.  A run that is still in
    its loop has released nothing. *)
Theorem event_reader_releases guid hwnd s running q :
  let run := Native.RunDirectInputReader guid hwnd s running q in
  match snd run with
  | Some rc =>
      (rc = 0 \/ 2 <= rc <= 9)
      /\ count_call is_Release_di (fst run) = bool_to_nat (negb (rc =? 2))
      /\ count_call is_Release_dev (fst run) = bool_to_nat (negb ((rc =? 2) || (rc =? 3)))
      /\ count_call is_CloseHandle (fst run)
         = bool_to_nat ((rc =? 0) || (rc =? 8) || (rc =? 9))
      /\ count_call is_Unnotify (fst run) = bool_to_nat ((rc =? 0) || (rc =? 9))
      /\ count_call is_Unacquire (fst run) = bool_to_nat (rc =? 0)
      /\ (rc = 0 ->
          Native.FAILED (Native.r_DirectInput8Create s) = false
          /\ Native.FAILED (Native.r_CreateDevice s) = false
          /\ (hwnd <> 0 \/ Native.r_CreateHiddenWindow s <> 0)
          /\ Native.FAILED (Native.r_SetDataFormat s) = false
          /\ Native.FAILED (Native.r_SetCooperativeLevel s) = false
          /\ Native.r_CreateEventW s <> 0
          /\ Native.FAILED (Native.r_SetEventNotification s) = false
          /\ Native.FAILED (Native.r_Acquire s) = false)
  | None =>
      count_call is_Release_di (fst run) = 0%nat
      /\ count_call is_Release_dev (fst run) = 0%nat
      /\ count_call is_CloseHandle (fst run) = 0%nat
      /\ count_call is_Unnotify (fst run) = 0%nat
      /\ count_call is_Unacquire (fst run) = 0%nat
  end.
Proof.
  intros run. unfold run, Native.RunDirectInputReader.
  destruct (Native.FAILED (Native.r_DirectInput8Create s)) eqn:E1;
    [simpl; repeat split; try lia; discriminate|].
  destruct (Native.FAILED (Native.r_CreateDevice s)) eqn:E2;
    [simpl; repeat split; try lia; discriminate|].
  destruct ((hwnd =? 0) && (Native.r_CreateHiddenWindow s =? 0)) eqn:E3;
    [simpl; repeat split; try lia; discriminate|].
  destruct (Native.FAILED (Native.r_SetDataFormat s)) eqn:E4;
    [simpl; repeat split; try lia; discriminate|].
  destruct (Native.FAILED (Native.r_SetCooperativeLevel s)) eqn:E5;
    [simpl; repeat split; try lia; discriminate|].
  destruct (Native.r_CreateEventW s =? 0) eqn:E6;
    [simpl; repeat split; try lia; discriminate|].
  destruct (Native.FAILED (Native.r_SetEventNotification s)) eqn:E7;
    [simpl; repeat split; try lia; discriminate|].
  destruct (Native.FAILED (Native.r_Acquire s)) eqn:E8;
    [simpl; repeat split; try lia; discriminate|].
  pose proof (DILoop_actions running q) as A.
  destruct (Native.DILoop running q) as [tr left]. simpl in A.
  assert (C : forall p, p Acquire = false -> count_call p tr = 0%nat)
    by (intros p Hp; now apply count_call_loop).
  destruct left; simpl snd; simpl fst; cbv iota.
  - split; [now left|].
    change (?a :: ?b :: tr ++ ?r) with ([a; b] ++ tr ++ r).
    rewrite !count_call_app, !C by reflexivity.
    repeat split; try reflexivity.
    + apply andb_false_iff in E3. rewrite !Z.eqb_neq in E3. tauto.
    + now apply Z.eqb_neq.
  - change (?a :: ?b :: tr) with ([a; b] ++ tr).
    rewrite !count_call_app, !C by reflexivity. repeat split.
Qed.

(** ** The drain *)

Lemma DrainBuffered_all_on data :
  forallb drains_on data = true ->
  Native.DrainBuffered data = (repeat (Api Acquire) (lost_count data), None).
Proof.
  induction data as [|[hr n] data IH]; simpl; [reflexivity|].
  unfold drains_on at 1. simpl. intros H. apply andb_true_iff in H as [H1 H2].
  rewrite (IH H2). unfold lost_count. simpl.
  destruct (Native.state_lost hr); simpl; [reflexivity|].
  simpl in H1. apply negb_true_iff in H1. now rewrite H1.
Qed.

(** X6.  The drain of buffered events consumes the answers of
    [GetDeviceData] up to and including the first one that is neither a
    state-lost status nor a successful non-empty batch, re-acquiring once for
    each state-lost status on the way and writing nothing; a failure of
    another kind ends it as silently as an empty buffer does.  As long as
    every answer is state-lost or a non-empty batch the drain goes on, without
    a look at the stop flag. *)
Theorem drain_stops_at (before : list (Native.HRESULT * Native.DWORD))
    (last : Native.HRESULT * Native.DWORD) (rest : list (Native.HRESULT * Native.DWORD)) :
  forallb drains_on before = true ->
  drains_on last = false ->
  Native.DrainBuffered (before ++ last :: rest)
  = (repeat (Api Acquire) (lost_count before), Some rest)
  /\ Native.DrainBuffered before
     = (repeat (Api Acquire) (lost_count before), None).
Proof.
  intros Hb Hl. split; [|now apply DrainBuffered_all_on].
  induction before as [|[hr n] before IH]; simpl.
  - destruct last as [hr n]. unfold drains_on in Hl. simpl in Hl.
    apply orb_false_iff in Hl as [H1 H2]. apply negb_false_iff in H2.
    now rewrite H1, H2.
  - simpl in Hb. apply andb_true_iff in Hb as [H1 H2].
    rewrite (IH H2). unfold drains_on in H1. simpl in H1.
    unfold lost_count. simpl.
    destruct (Native.state_lost hr); simpl; [reflexivity|].
    simpl in H1. apply negb_true_iff in H1. now rewrite H1.
Qed.

Lemma drain_stops_at_witness :
  Native.DrainBuffered
    [(Native.DI_OK, 3); (Native.DIERR_INPUTLOST, 0); (E_FAIL, 5); (Native.DI_OK, 1)]
  = ([Api Acquire], Some [(Native.DI_OK, 1)]).
Proof.
  apply (drain_stops_at [(Native.DI_OK, 3); (Native.DIERR_INPUTLOST, 0)]
                        (E_FAIL, 5) [(Native.DI_OK, 1)]); reflexivity.
Defined.

(** ** What the event loop writes *)

Lemma DrainBuffered_outputs data :
  filter is_output (fst (Native.DrainBuffered data)) = [].
Proof.
  induction data as [|[hr n] data IH]; simpl; [reflexivity|].
  destruct (Native.state_lost hr).
  - destruct (Native.DrainBuffered data). simpl in *. exact IH.
  - destruct (Native.FAILED hr || (n =? 0)); [reflexivity | exact IH].
Qed.

Lemma DIIteration_outputs q :
  let '(tr, fl, q') := Native.DIIteration q in
  match Native.waits q with
  | [] => tr = [] /\ fl = Native.Pending
  | wait :: waits' =>
      Native.waits q' = waits'
      /\ match fl with
         | Native.Break =>
             List.length (filter is_output tr) = 1%nat /\ signalled wait = false
         | _ =>
             (List.length (filter is_output tr) <= bool_to_nat (signalled wait))%nat
         end
  end.
Proof.
  unfold Native.DIIteration, signalled.
  destruct (Native.waits q) as [|wait waits']; [now split|].
  destruct (wait =? Native.WAIT_OBJECT_0) eqn:Ew.
  - pose proof (DrainBuffered_outputs (Native.data q)) as D.
    destruct (Native.DrainBuffered (Native.data q)) as [tr [data'|]]; simpl in *;
      [|split; [reflexivity | rewrite D; simpl; lia]].
    destruct (Native.states q) as [|[hr js] states]; simpl;
      [split; [reflexivity | rewrite D; simpl; lia]|].
    destruct (Native.state_lost hr); [|destruct (Native.SUCCEEDED hr)]; simpl;
      (split; [reflexivity|]); rewrite ?filter_app, ?D; simpl; lia.
  - destruct (wait =? Native.WAIT_TIMEOUT); simpl; [|now repeat split].
    destruct (Native.states q) as [|[hr js] states]; simpl;
      [split; [reflexivity | lia]|].
    destruct (Native.state_lost hr); [|destruct (Native.FAILED hr)]; simpl;
      repeat split; lia.
Qed.

(** X7.  The number of texts the event loop writes is at most the number
    of waits that end with the event signalled, plus one (the final
    message): waits that time out or fail add nothing to the count, and
    with no signalled wait at all the loop writes at most one text. *)
Theorem event_loop_output_bound running q :
  (List.length (filter is_output (fst (Native.DILoop running q)))
   <= List.length (filter signalled (Native.waits q)) + 1)%nat.
Proof.
  revert q; induction running as [|r running IH]; intros q; simpl; [lia|].
  destruct r; [|simpl; lia].
  pose proof (DIIteration_outputs q) as H.
  destruct (Native.DIIteration q) as [[tr fl] q'].
  destruct (Native.waits q) as [|wait waits'] eqn:Ew.
  - destruct H as [-> ->]. simpl. lia.
  - destruct H as [Hq H]. simpl.
    destruct fl.
    + specialize (IH q'). rewrite Hq in IH.
      destruct (Native.DILoop running q') as [tr' left]. simpl in *.
      rewrite filter_app, length_app.
      destruct (signalled wait); simpl in *; lia.
    + destruct H as [H _]. simpl. rewrite H. lia.
    + simpl. destruct (signalled wait); simpl in *; lia.
Qed.

(** ** Printed indices and the argument of [main] *)

(** X8.  The number printed in brackets before a device in the listing is
    the argument that selects that device: for the device at position [k] of
    the catalog, the listing of the same hardware writes, as its text number
    [3 + k], the line of that device with [k] in brackets, [k] is the index
    the device carries, and [main] called with the decimal text of [k] runs
    the stream loop of that very device and returns its result. *)
Theorem listed_index_selects towlower WideCharToMultiByte_UTF8
    (w : Native.World) (prog : string) (k : nat) (d : Native.DeviceInfo) :
  nth_error (Native.EnumerateDevices towlower (Native.w_enumerate w)) k = Some d ->
  Z.of_nat k <= Native.INT_MAX ->
  nth_error (stdout_of (Native.PrintUsageAndList towlower WideCharToMultiByte_UTF8
                                                 (Native.w_enumerate w))) (3 + k)
  = Some ("  [" ++ to_string (Z.of_nat k) ++ "] " ++ kind_text (Native.kind d)
          ++ "  " ++ Native.WToUtf8 WideCharToMultiByte_UTF8 (Native.name d)
          ++ match Native.kind d with
             | Native.XInput => " (user=" ++ to_string (Native.xinputUser d) ++ ")"
             | Native.DirectInput => ""
             end
          ++ nl)%string
  /\ Native.index d = Z.of_nat k
  /\ snd (Native.main towlower WideCharToMultiByte_UTF8
                      [prog; to_string (Native.index d)] w)
     = snd (stream_loop d w)
  /\ nth_error (stdout_of (fst (Native.main towlower WideCharToMultiByte_UTF8
                                            [prog; to_string (Native.index d)] w))) 0
     = Some ("Selected [" ++ to_string (Z.of_nat k) ++ "] "
             ++ kind_text (Native.kind d) ++ "  "
             ++ Native.WToUtf8 WideCharToMultiByte_UTF8 (Native.name d) ++ nl)%string.
Proof.
  intros Hd Hk.
  assert (Hlen : (k < List.length (Native.EnumerateDevices towlower (Native.w_enumerate w)))%nat)
    by (apply nth_error_Some; congruence).
  assert (Hi : Native.index d = Z.of_nat k).
  { pose proof (EnumerateDevices_indices towlower (Native.w_enumerate w)) as E.
    apply (f_equal (fun l => nth_error l k)) in E.
    rewrite nth_error_map, Hd in E. simpl in E.
    rewrite nth_error_map, nth_error_seq in E.
    destruct (Nat.ltb_spec k (List.length (Native.EnumerateDevices towlower
                                             (Native.w_enumerate w)))); [|lia].
    simpl in E. now injection E. }
  split; [|split; [exact Hi|]].
  - rewrite PrintUsageAndList_text, !stdout_of_app, stdout_of_enumeration,
      stdout_of_Cout.
    unfold catalog_text.
    destruct (Native.EnumerateDevices towlower (Native.w_enumerate w)) as [|d0 ds] eqn:E;
      [destruct k; discriminate|].
    change (nth_error (device_lines (Native.WToUtf8 WideCharToMultiByte_UTF8) 0 (d0 :: ds)) k
            = Some (device_line (Native.WToUtf8 WideCharToMultiByte_UTF8) k d)).
    now rewrite (nth_error_device_lines _ _ 0 k d Hd).
  - rewrite Hi. unfold Native.main. rewrite (stoi_to_string_nat k Hk). cbv zeta.
    replace ((Z.of_nat k <? 0)
             || (Z.of_nat (List.length (Native.EnumerateDevices towlower
                                          (Native.w_enumerate w))) <=? Z.of_nat k))
      with false
      by (symmetry; apply orb_false_iff; rewrite Z.ltb_ge, Z.leb_gt; lia).
    rewrite Nat2Z.id, (nth_error_nth_default _ _ Native.default_device _ Hd).
    change (Native.EnumerateDevices_calls (Native.w_enumerate w))
      with (directinput_enumeration (Native.w_enumerate w)).
    rewrite Hi.
    unfold stream_loop. destruct (Native.kind d).
    + destruct (Native.RunXInputReader _ _ _) as [tr rc]. cbn [fst snd].
      split; [reflexivity|].
      change (?a :: ?l ++ ?r) with ([a] ++ l ++ r).
      now rewrite !stdout_of_app, stdout_of_enumeration.
    + destruct (Native.RunDirectInputReader _ _ _ _ _) as [tr [rc|]]; cbn [fst snd];
        (split; [reflexivity|]);
        change (?a :: ?l ++ ?r) with ([a] ++ l ++ r);
        now rewrite !stdout_of_app, stdout_of_enumeration.
Qed.

Lemma listed_index_selects_witness :
  nth_error (stdout_of (Native.PrintUsageAndList towlower_C utf8_of_ascii two_devices)) 4
  = Some ("  [1] DirectInp  Logitech Extreme 3D Pro" ++ nl)%string
  /\ snd (Native.main towlower_C utf8_of_ascii ["JoystickInput"; "1"]
                      (sample_world two_devices))
     = snd (stream_loop (Native.mkDeviceInfo 1 Native.DirectInput
                                             (L "Logitech Extreme 3D Pro") 0 12)
                        (sample_world two_devices)).
Proof.
  assert (Hd : nth_error (Native.EnumerateDevices towlower_C
                            (Native.w_enumerate (sample_world two_devices))) 1
               = Some (Native.mkDeviceInfo 1 Native.DirectInput
                                           (L "Logitech Extreme 3D Pro") 0 12))
    by (vm_compute; reflexivity).
  assert (Hk : Z.of_nat 1 <= Native.INT_MAX) by (vm_compute; discriminate).
  destruct (listed_index_selects towlower_C utf8_of_ascii
              (sample_world two_devices) "JoystickInput" 1 _ Hd Hk)
    as [Hline [_ [Hrun _]]].
  split; [exact Hline | exact Hrun].
Defined.

(** ** The width of a state line *)

Lemma dec_acc_lower d acc :
  Zpos acc * 10 ^ Z.of_nat (Decimal.nb_digits d) <= Zpos (Pos.of_uint_acc d acc).
Proof.
  revert acc; induction d; intros acc; cbn [Decimal.nb_digits Pos.of_uint_acc];
    [rewrite Z.pow_0_r; lia|..];
    rewrite Nat2Z.inj_succ, Z.pow_succ_r by lia;
    (etransitivity; [|apply IHd]);
    pose proof (Z.pow_nonneg 10 (Z.of_nat (Decimal.nb_digits d)) ltac:(lia)); nia.
Qed.

Lemma hex_acc_lower d acc :
  Zpos acc * 16 ^ Z.of_nat (Hexadecimal.nb_digits d) <= Zpos (Pos.of_hex_uint_acc d acc).
Proof.
  revert acc; induction d; intros acc;
    cbn [Hexadecimal.nb_digits Pos.of_hex_uint_acc];
    [rewrite Z.pow_0_r; lia|..];
    rewrite Nat2Z.inj_succ, Z.pow_succ_r by lia;
    (etransitivity; [|apply IHd]);
    pose proof (Z.pow_nonneg 16 (Z.of_nat (Hexadecimal.nb_digits d)) ltac:(lia)); nia.
Qed.

Lemma dec_nzhead_not_D0 d d' : Decimal.nzhead d <> Decimal.D0 d'.
Proof. induction d; simpl; try discriminate; exact IHd. Qed.

Lemma hex_nzhead_not_D0 d d' : Hexadecimal.nzhead d <> Hexadecimal.D0 d'.
Proof. induction d; simpl; try discriminate; exact IHd. Qed.

Lemma pos_to_uint_head p d' : Pos.to_uint p <> Decimal.D0 d'.
Proof.
  intros E.
  pose proof (DecimalPos.Unsigned.to_of (Pos.to_uint p)) as H.
  rewrite DecimalPos.Unsigned.of_to in H. cbn [N.to_uint] in H.
  rewrite E in H. change (Decimal.unorm (Decimal.D0 d')) with (Decimal.unorm d') in H.
  unfold Decimal.unorm in H.
  destruct (Decimal.nzhead d') eqn:En;
    try (symmetry in H; rewrite <- En in H; now apply dec_nzhead_not_D0 in H).
  injection H as ->. now apply (DecimalPos.Unsigned.to_uint_nonzero p).
Qed.

Lemma pos_to_hex_uint_head p d' : Pos.to_hex_uint p <> Hexadecimal.D0 d'.
Proof.
  intros E.
  pose proof (HexadecimalPos.Unsigned.to_of (Pos.to_hex_uint p)) as H.
  rewrite HexadecimalPos.Unsigned.of_to in H. cbn [N.to_hex_uint] in H.
  rewrite E in H.
  change (Hexadecimal.unorm (Hexadecimal.D0 d')) with (Hexadecimal.unorm d') in H.
  unfold Hexadecimal.unorm in H.
  destruct (Hexadecimal.nzhead d') eqn:En;
    try (symmetry in H; rewrite <- En in H; now apply hex_nzhead_not_D0 in H).
  injection H as ->. now apply (HexadecimalPos.Unsigned.to_uint_nonzero p).
Qed.

Lemma pos_digits_lower p :
  10 ^ (Z.of_nat (Decimal.nb_digits (Pos.to_uint p)) - 1) <= Zpos p.
Proof.
  pose proof (DecimalPos.Unsigned.of_to p) as E.
  pose proof (pos_to_uint_head p) as Hh.
  destruct (Pos.to_uint p) as [|d|d|d|d|d|d|d|d|d|d];
    [discriminate | now destruct (Hh d) |..];
    cbn [Pos.of_uint] in E; injection E as <-;
    cbn [Decimal.nb_digits];
    replace (Z.of_nat (S (Decimal.nb_digits d)) - 1)
      with (Z.of_nat (Decimal.nb_digits d)) by lia;
    (etransitivity; [|apply dec_acc_lower]);
    pose proof (Z.pow_nonneg 10 (Z.of_nat (Decimal.nb_digits d)) ltac:(lia)); nia.
Qed.

Lemma pos_hex_digits_lower p :
  16 ^ (Z.of_nat (Hexadecimal.nb_digits (Pos.to_hex_uint p)) - 1) <= Zpos p.
Proof.
  pose proof (HexadecimalPos.Unsigned.of_to p) as E.
  pose proof (pos_to_hex_uint_head p) as Hh.
  destruct (Pos.to_hex_uint p) as [|d|d|d|d|d|d|d|d|d|d|d|d|d|d|d|d];
    [discriminate | now destruct (Hh d) |..];
    cbn [Pos.of_hex_uint] in E; injection E as <-;
    cbn [Hexadecimal.nb_digits];
    replace (Z.of_nat (S (Hexadecimal.nb_digits d)) - 1)
      with (Z.of_nat (Hexadecimal.nb_digits d)) by lia;
    (etransitivity; [|apply hex_acc_lower]);
    pose proof (Z.pow_nonneg 16 (Z.of_nat (Hexadecimal.nb_digits d)) ltac:(lia)); nia.
Qed.

Lemma length_dec_string d :
  String.length (DecimalString.NilEmpty.string_of_uint d) = Decimal.nb_digits d.
Proof. induction d; simpl; [|rewrite IHd..]; reflexivity. Qed.

Lemma length_hex_string d :
  String.length (HexadecimalString.NilEmpty.string_of_uint d) = Hexadecimal.nb_digits d.
Proof. induction d; simpl; [|rewrite IHd..]; reflexivity. Qed.

Lemma digits_below (b : Z) (n m : nat) (v : Z) :
  1 < b -> b ^ (Z.of_nat n - 1) <= v -> v < b ^ Z.of_nat m -> (n <= m)%nat.
Proof.
  intros Hb Hl Hu. destruct (Nat.le_gt_cases n m) as [H|H]; [exact H|exfalso].
  assert (b ^ Z.of_nat m <= b ^ (Z.of_nat n - 1)) by (apply Z.pow_le_mono_r; lia).
  lia.
Qed.

(** The decimal text of [z] has at most [m] digits, and a sign when [z] is
    negative, when [z] lies between the powers of ten. *)
Lemma to_string_length z (m : nat) :
  (0 < m)%nat -> - 10 ^ Z.of_nat m < z < 10 ^ Z.of_nat m ->
  (String.length (to_string z) <= m + (if (z <? 0)%Z then 1 else 0))%nat.
Proof.
  intros Hm Hz. unfold to_string. destruct z as [|p|p].
  - simpl. lia.
  - change (Z.pos p <? 0) with false. cbv iota.
    cbn [Z.to_int DecimalString.NilZero.string_of_int].
    pose proof (DecimalPos.Unsigned.to_uint_nonnil p) as Hn.
    replace (DecimalString.NilZero.string_of_uint (Pos.to_uint p))
      with (DecimalString.NilEmpty.string_of_uint (Pos.to_uint p))
      by (destruct (Pos.to_uint p); [contradiction|..]; reflexivity).
    rewrite length_dec_string, Nat.add_0_r.
    apply (digits_below 10 _ _ (Zpos p)); [lia | apply pos_digits_lower | lia].
  - cbn [Z.to_int DecimalString.NilZero.string_of_int].
    pose proof (DecimalPos.Unsigned.to_uint_nonnil p) as Hn.
    replace (DecimalString.NilZero.string_of_uint (Pos.to_uint p))
      with (DecimalString.NilEmpty.string_of_uint (Pos.to_uint p))
      by (destruct (Pos.to_uint p); [contradiction|..]; reflexivity).
    cbn [String.length]. rewrite length_dec_string.
    change (Z.neg p <? 0) with true. cbv iota.
    assert (Decimal.nb_digits (Pos.to_uint p) <= m)%nat; [|lia].
    pose proof (Pos2Z.opp_pos p) as Ho.
    apply (digits_below 10 _ _ (Zpos p)); [lia | apply pos_digits_lower | lia].
Qed.

Lemma to_hex_length z (m : nat) :
  (0 < m)%nat -> 0 <= z < 16 ^ Z.of_nat m ->
  (String.length (to_hex z) <= m)%nat.
Proof.
  intros Hm Hz. unfold to_hex. destruct z as [|p|p]; [simpl; lia| |lia].
  cbn [Z.to_N N.to_hex_uint].
  pose proof (HexadecimalPos.Unsigned.to_uint_nonnil p) as Hn.
  replace (HexadecimalString.NilZero.string_of_uint (Pos.to_hex_uint p))
    with (HexadecimalString.NilEmpty.string_of_uint (Pos.to_hex_uint p))
    by (destruct (Pos.to_hex_uint p); [contradiction|..]; reflexivity).
  rewrite length_hex_string.
  apply (digits_below 16 _ _ (Zpos p)); [lia | apply pos_hex_digits_lower | lia].
Qed.

Lemma length_append (s t : string) :
  String.length (s ++ t) = (String.length s + String.length t)%nat.
Proof. induction s as [|c s IH]; simpl; [|rewrite IH]; reflexivity. Qed.

Lemma length_replicate n c : String.length (replicate n c) = n.
Proof. induction n as [|n IH]; simpl; [|rewrite IH]; reflexivity. Qed.

Lemma length_pad_left w c s :
  String.length (pad_left w c s) = Nat.max w (String.length s).
Proof. unfold pad_left. rewrite length_append, length_replicate. lia. Qed.

Lemma pad_left_0 c s : pad_left 0 c s = s.
Proof. reflexivity. Qed.

Lemma PrintXInputState_text s :
  written_by (Native.PrintXInputState s) = xinput_line (Native.Gamepad s).
Proof.
  unfold written_by, Native.PrintXInputState, xinput_line, field, dpad_flag.
  cbv [str int uint chr setw setfill std_hex std_dec insert
       base fill width written fresh].
  rewrite !pad_left_0, !append_assoc. reflexivity.
Qed.

Lemma length_field (w m : nat) z :
  (0 < m)%nat -> - 10 ^ Z.of_nat m < z < 10 ^ Z.of_nat m ->
  (m + (if (z <? 0)%Z then 1 else 0) <= w)%nat ->
  String.length (field w z) = w.
Proof.
  intros Hm Hz Hw. unfold field. rewrite length_pad_left.
  pose proof (to_string_length z m Hm Hz). lia.
Qed.

Lemma length_dpad_flag buttons mask : String.length (dpad_flag buttons mask) = 1%nat.
Proof. unfold dpad_flag. now destruct (Z.land buttons mask =? 0). Qed.

(** X9.  An XInput state line has the same layout for every state whose
    members hold values of their C types: each thumb-stick value fills
    exactly 6 columns, each trigger value 3, the button mask 4 hexadecimal
    digits and each direction flag 1, so every line is 98 characters long and
    the labels of successive lines stand in the same columns. *)
Theorem xinput_line_layout (s : Native.XINPUT_STATE) :
  gamepad_in_range (Native.Gamepad s) ->
  let g := Native.Gamepad s in
  written_by (Native.PrintXInputState s) = xinput_line g
  /\ String.length (field 6 (Native.sThumbLX g)) = 6%nat
  /\ String.length (field 6 (Native.sThumbLY g)) = 6%nat
  /\ String.length (field 6 (Native.sThumbRX g)) = 6%nat
  /\ String.length (field 6 (Native.sThumbRY g)) = 6%nat
  /\ String.length (field 3 (Native.bLeftTrigger g)) = 3%nat
  /\ String.length (field 3 (Native.bRightTrigger g)) = 3%nat
  /\ String.length (pad_left 4 "0" (to_hex (Native.wButtons g))) = 4%nat
  /\ String.length (written_by (Native.PrintXInputState s)) = 98%nat.
Proof.
  intros [Hw [Hl [Hr [H1 [H2 [H3 H4]]]]]] g. fold g in Hw, Hl, Hr, H1, H2, H3, H4.
  assert (S6 : forall z, -32768 <= z <= 32767 -> String.length (field 6 z) = 6%nat).
  { intros z Hz. apply (length_field 6 5 z); [lia | simpl; lia|].
    destruct (z <? 0); lia. }
  assert (B3 : forall z, 0 <= z <= 255 -> String.length (field 3 z) = 3%nat).
  { intros z Hz. apply (length_field 3 3 z); [lia | simpl; lia|].
    destruct (Z.ltb_spec z 0); lia. }
  assert (W4 : String.length (pad_left 4 "0" (to_hex (Native.wButtons g))) = 4%nat).
  { rewrite length_pad_left.
    pose proof (to_hex_length (Native.wButtons g) 4 ltac:(lia) ltac:(simpl; lia)). lia. }
  split; [apply PrintXInputState_text|].
  repeat (split; [auto|]).
  rewrite PrintXInputState_text. fold g. unfold xinput_line.
  repeat rewrite length_append.
  rewrite !S6, !B3, W4, !length_dpad_flag by assumption. reflexivity.
Qed.

Lemma xinput_line_layout_witness :
  String.length (written_by (Native.PrintXInputState
                               (Native.mkXState 7 (Native.mkGamepad 0x100A 255 3
                                                      (-32768) 32767 0 12))))
  = 98%nat.
Proof.
  apply (xinput_line_layout (Native.mkXState 7 (Native.mkGamepad 0x100A 255 3
                                                  (-32768) 32767 0 12))).
  unfold gamepad_in_range. simpl. lia.
Defined.

Lemma dec_acc_upper d acc :
  Zpos (Pos.of_uint_acc d acc) < (Zpos acc + 1) * 10 ^ Z.of_nat (Decimal.nb_digits d).
Proof.
  revert acc; induction d; intros acc; cbn [Decimal.nb_digits Pos.of_uint_acc];
    [rewrite Z.pow_0_r; lia|..];
    rewrite Nat2Z.inj_succ, Z.pow_succ_r by lia;
    (eapply Z.lt_le_trans; [apply IHd|]);
    pose proof (Z.pow_nonneg 10 (Z.of_nat (Decimal.nb_digits d)) ltac:(lia)); nia.
Qed.

Lemma pos_digits_upper p :
  Zpos p < 10 ^ Z.of_nat (Decimal.nb_digits (Pos.to_uint p)).
Proof.
  pose proof (DecimalPos.Unsigned.of_to p) as E.
  pose proof (pos_to_uint_head p) as Hh.
  destruct (Pos.to_uint p) as [|d|d|d|d|d|d|d|d|d|d];
    [discriminate | now destruct (Hh d) |..];
    cbn [Pos.of_uint] in E; injection E as <-;
    cbn [Decimal.nb_digits];
    rewrite Nat2Z.inj_succ, Z.pow_succ_r by lia;
    (eapply Z.lt_le_trans; [apply dec_acc_upper|]);
    pose proof (Z.pow_nonneg 10 (Z.of_nat (Decimal.nb_digits d)) ltac:(lia)); nia.
Qed.

(** The decimal text of a number of at least [10 ^ m] has more than [m]
    digits. *)
Lemma to_string_length_lower z (m : nat) :
  10 ^ Z.of_nat m <= z -> (m < String.length (to_string z))%nat.
Proof.
  intros Hz. pose proof (Z.pow_pos_nonneg 10 (Z.of_nat m) ltac:(lia) ltac:(lia)).
  unfold to_string. destruct z as [|p|p]; try lia.
  cbn [Z.to_int DecimalString.NilZero.string_of_int].
  pose proof (DecimalPos.Unsigned.to_uint_nonnil p) as Hn.
  replace (DecimalString.NilZero.string_of_uint (Pos.to_uint p))
    with (DecimalString.NilEmpty.string_of_uint (Pos.to_uint p))
    by (destruct (Pos.to_uint p); [contradiction|..]; reflexivity).
  rewrite length_dec_string.
  pose proof (pos_digits_upper p) as Hu.
  destruct (Nat.le_gt_cases (Decimal.nb_digits (Pos.to_uint p)) m) as [Hle|Hgt];
    [exfalso|exact Hgt].
  assert (10 ^ Z.of_nat (Decimal.nb_digits (Pos.to_uint p)) <= 10 ^ Z.of_nat m)
    by (apply Z.pow_le_mono_r; lia).
  lia.
Qed.

Lemma PrintDIState_text js :
  written_by (Native.PrintDIState js) = di_line js.
Proof.
  unfold written_by, Native.PrintDIState, di_line, field, pov_field, button_flags.
  cbv [fold_left seq Native.print_pov Native.print_button].
  destruct (nth 0 (Native.rgdwPOV js) 0 =? 4294967295);
  destruct (nth 1 (Native.rgdwPOV js) 0 =? 4294967295);
  destruct (nth 2 (Native.rgdwPOV js) 0 =? 4294967295);
  destruct (nth 3 (Native.rgdwPOV js) 0 =? 4294967295);
  cbv [str int uint chr setw setfill std_hex std_dec insert
       base fill width written fresh];
  rewrite !pad_left_0, !append_assoc; reflexivity.
Qed.

Lemma length_string_of_list_ascii l :
  String.length (string_of_list_ascii l) = List.length l.
Proof. induction l as [|c l IH]; simpl; [|rewrite IH]; reflexivity. Qed.

Lemma length_axis_field v : fits_axis v -> String.length (field 6 v) = 6%nat.
Proof.
  intros Hv. unfold fits_axis in Hv. destruct (Z.ltb_spec v 0) as [Hn|Hp].
  - apply (length_field 6 5 v); [lia | simpl; lia|]. destruct (v <? 0); lia.
  - apply (length_field 6 6 v); [lia | simpl; lia|].
    destruct (Z.ltb_spec v 0); lia.
Qed.

Lemma length_pov_field pov : fits_pov pov -> String.length (pov_field pov) = 5%nat.
Proof.
  unfold pov_field. intros [-> | Hp]; [reflexivity|].
  destruct (Z.eqb_spec pov 4294967295); [lia|].
  rewrite length_append. change (String.length " ") with 1%nat.
  assert (String.length (field 4 pov) = 4%nat); [|unfold field in *; lia].
  apply (length_field 4 4 pov); [lia | simpl; lia|].
  destruct (Z.ltb_spec pov 0); lia.
Qed.

(** X10.  A DirectInput state line shows the six axes, the two sliders, the
    four points of view and the first 32 buttons, one flag each, and nothing
    else of the state: two states that agree on these print the same line,
    whatever their buttons 32 to 127.  When every axis and slider value fits
    6 columns and every point of view is centred or below 10000, each field
    has its fixed width and the line is 156 characters long; a point of view
    of 10000 or more (100 degrees and beyond) takes a fifth column. *)
Theorem directinput_line_layout (js : Native.DIJOYSTATE2) :
  written_by (Native.PrintDIState js) = di_line js
  /\ (forall js', same_shown js js' ->
        written_by (Native.PrintDIState js') = written_by (Native.PrintDIState js))
  /\ String.length (button_flags js) = 32%nat
  /\ (joystate_fits js ->
      String.length (written_by (Native.PrintDIState js)) = 156%nat)
  /\ (forall pov, 10000 <= pov < 100000 -> String.length (pov_field pov) = 6%nat).
Proof.
  split; [apply PrintDIState_text|]. split; [|split; [|split]].
  - intros js' [E1 [E2 [E3 [E4 [E5 [E6 [Es [Ep Eb]]]]]]]].
    rewrite !PrintDIState_text.
    assert (Hb : button_flags js' = button_flags js).
    { unfold button_flags. f_equal. apply map_ext_in. intros i Hi.
      apply in_seq in Hi. rewrite Eb by lia. reflexivity. }
    unfold di_line. rewrite Hb, E1, E2, E3, E4, E5, E6, !Es, !Ep by lia.
    reflexivity.
  - unfold button_flags. now rewrite length_string_of_list_ascii, length_map, length_seq.
  - intros [F1 [F2 [F3 [F4 [F5 [F6 [F7 [F8 Fp]]]]]]]].
    rewrite PrintDIState_text. unfold di_line.
    repeat rewrite length_append.
    rewrite !length_axis_field, !length_pov_field by (assumption || (apply Fp; lia)).
    unfold button_flags.
    rewrite length_string_of_list_ascii, length_map, length_seq. reflexivity.
  - intros pov Hp. unfold pov_field.
    destruct (Z.eqb_spec pov 4294967295); [lia|].
    rewrite length_append, length_pad_left. change (String.length " ") with 1%nat.
    pose proof (to_string_length pov 5 ltac:(lia) ltac:(simpl; lia)) as Hu.
    destruct (Z.ltb_spec pov 0); [lia|].
    pose proof (to_string_length_lower pov 4 ltac:(simpl; lia)) as Hl.
    lia.
Qed.

Lemma directinput_line_layout_witness :
  written_by (Native.PrintDIState hat_south_button_40)
  = written_by (Native.PrintDIState hat_south)
  /\ String.length (written_by (Native.PrintDIState stick_right)) = 156%nat.
Proof.
  assert (S : same_shown hat_south hat_south_button_40).
  { repeat split; intros i Hi;
      do 32 (destruct i as [|i]; [reflexivity|]); lia. }
  assert (F : joystate_fits stick_right).
  { unfold joystate_fits, fits_axis. simpl. repeat split; try lia.
    intros i Hi. unfold fits_pov.
    do 4 (destruct i as [|i]; [simpl; lia|]). lia. }
  split.
  - exact (proj1 (proj2 (directinput_line_layout hat_south)) hat_south_button_40 S).
  - exact (proj1 (proj2 (proj2 (proj2 (directinput_line_layout stick_right)))) F).
Defined.

(** ** The browser surface: selection *)

Lemma StartStreaming_result {double : Type} (b : @Web.Browser double) i g :
  fst (fst (Web.StartStreaming b i g))
  = if (0 <=? i) && (i <? Z.of_nat (List.length (Web.UpdateGamepadList b)))
    then 1 else 0.
Proof.
  unfold Web.StartStreaming. cbv zeta.
  destruct (Z.ltb_spec i 0); destruct (Z.leb_spec 0 i); try lia; simpl;
    [reflexivity|].
  destruct (Z.leb_spec (Z.of_nat (List.length (Web.UpdateGamepadList b))) i);
    destruct (Z.ltb_spec i (Z.of_nat (List.length (Web.UpdateGamepadList b))));
    try lia; reflexivity.
Qed.

(** X11.  [StartStreaming] accepts an index exactly when it is a position
    of the list it has just rebuilt, that is at least 0 and below the count
    [ListGamepads] returns for the same browser answers.  A rejected call
    returns 0, writes the one "Invalid gamepad index" line and leaves the
    streaming flag and the selection as they were.  An accepted call returns
    1, sets the flag and selects the index; from then on a frame reads the
    browser slot of that number and writes its line.  Either way the stored
    list is the rebuilt one. *)
Theorem start_streaming_by_position (double : Type)
    (axis_to_string : double -> string)
    (b : @Web.Browser double) (i : Z) (g : Web.Globals) :
  let count := fst (fst (Web.ListGamepads b g)) in
  let r := fst (fst (Web.StartStreaming b i g)) in
  let g' := snd (fst (Web.StartStreaming b i g)) in
  (r = 1 <-> 0 <= i < count)
  /\ (r = 0 <-> ~ 0 <= i < count)
  /\ (r = 0 ->
      Web.g_streaming g' = Web.g_streaming g
      /\ Web.g_selectedGamepad g' = Web.g_selectedGamepad g
      /\ snd (Web.StartStreaming b i g)
         = [Cout ("Invalid gamepad index: " ++ to_string i ++ nl)])
  /\ (r = 1 ->
      Web.g_streaming g' = true
      /\ Web.g_selectedGamepad g' = i
      /\ forall b' : @Web.Browser double,
           Web.UpdateGamepadState axis_to_string b' g'
           = (g', frame_line axis_to_string (Web.GetGamepadState b' i)))
  /\ Web.g_gamepads g' = Web.UpdateGamepadList b
  /\ Web.g_gamepads (snd (fst (Web.ListGamepads b g))) = Web.UpdateGamepadList b.
Proof.
  intros count r g'. unfold count, r, g'. clear count r g'.
  rewrite StartStreaming_result.
  change (fst (fst (Web.ListGamepads b g)))
    with (Z.of_nat (List.length (Web.UpdateGamepadList b))).
  unfold Web.StartStreaming. cbv zeta.
  set (n := Z.of_nat (List.length (Web.UpdateGamepadList b))).
  destruct (Z.ltb_spec i 0) as [Hn|Hn]; destruct (Z.leb_spec 0 i) as [Hp|Hp];
    try lia; cbn [orb andb].
  - repeat split; try lia; try discriminate; try reflexivity.
  - destruct (Z.leb_spec n i) as [Hl|Hl]; destruct (Z.ltb_spec i n) as [Hu|Hu];
      try lia; cbn [fst snd].
    + repeat split; try lia; try discriminate; try reflexivity.
    + repeat split; try lia; try discriminate; try reflexivity.
      intros b'. unfold Web.UpdateGamepadState, frame_line. cbn [Web.g_streaming
        Web.g_selectedGamepad negb orb].
      destruct (Z.ltb_spec i 0); [lia|].
      destruct (Web.axes (Web.GetGamepadState b' i));
        destruct (Web.buttons (Web.GetGamepadState b' i)); reflexivity.
Qed.

(** X12.  In the browser build nothing is ever listed or streamed when the
    sampling call answers as documented, whatever gamepads are connected:
    [UpdateGamepadList] takes the status the call returns for the number of
    slots, so after any calls the globals are the initial ones, the list is
    empty, [ListGamepads] returns 0 and writes its heading and the "No
    gamepads detected" notice, and [StartStreaming] rejects every index with
    the "Invalid gamepad index" line. *)
Theorem browser_catalog_always_empty (double : Type)
    (axis_to_string : double -> string)
    (calls : list (@Web.Call double)) (b : @Web.Browser double) (i : Z) :
  forallb call_as_documented calls = true ->
  sample_is_status b = true ->
  let g := Web.after axis_to_string calls in
  g = Web.mkGlobals [] false (-1)
  /\ Web.UpdateGamepadList b = []
  /\ Web.ListGamepads b g
     = (0, g,
        [Cout ("Available gamepads:" ++ nl);
         Cout ("No gamepads detected. Make sure a gamepad is connected and press any button on it." ++ nl)])
  /\ Web.StartStreaming b i g
     = (0, g, [Cout ("Invalid gamepad index: " ++ to_string i ++ nl)])
  /\ Web.IsStreaming g = 0
  /\ Web.GetSelectedGamepad g = -1.
Proof.
  intros Hc Hb g. unfold g. clear g.
  rewrite (calls_as_documented_idle axis_to_string calls Hc).
  split; [reflexivity|]. split; [exact (UpdateGamepadList_status b Hb)|].
  split; [|split; [|split; reflexivity]].
  - unfold Web.ListGamepads. cbv zeta.
    now rewrite (UpdateGamepadList_status b Hb).
  - unfold Web.StartStreaming. cbv zeta. rewrite (UpdateGamepadList_status b Hb).
    cbn [List.length Z.of_nat].
    destruct (Z.ltb_spec i 0); destruct (Z.leb_spec 0 i); try lia; reflexivity.
Qed.

Lemma browser_catalog_always_empty_witness :
  Web.ListGamepads connected_pad Web.initial
  = (0, Web.initial,
     [Cout ("Available gamepads:" ++ nl);
      Cout ("No gamepads detected. Make sure a gamepad is connected and press any button on it." ++ nl)])
  /\ Web.StartStreaming connected_pad 0 Web.initial
     = (0, Web.initial, [Cout ("Invalid gamepad index: 0" ++ nl)])
  /\ Web.emscripten_get_gamepad_status connected_pad 0 = (0, pad_event true).
Proof.
  destruct (browser_catalog_always_empty unit no_axis_text [] connected_pad 0
              eq_refl eq_refl)
    as [_ [_ [Hl [Hs _]]]].
  split; [exact Hl|]. split; [exact Hs | reflexivity].
Defined.

(** ** The browser surface: the streaming flag *)

Lemma call_streaming {double : Type} (axis_to_string : double -> string)
    (g : Web.Globals) (c : @Web.Call double) :
  Web.g_streaming (Web.call axis_to_string g c)
  = if is_stop c then false
    else if accepted_start c then true
    else Web.g_streaming g.
Proof.
  destruct c as [b|b i| |b| |]; simpl; try reflexivity.
  - unfold Web.StartStreaming. cbv zeta.
    destruct (Z.ltb_spec i 0); destruct (Z.leb_spec 0 i); try lia; simpl;
      [reflexivity|].
    destruct (Z.leb_spec (Z.of_nat (List.length (Web.UpdateGamepadList b))) i);
      destruct (Z.ltb_spec i (Z.of_nat (List.length (Web.UpdateGamepadList b))));
      try lia; reflexivity.
  - unfold Web.UpdateGamepadState.
    destruct (negb (Web.g_streaming g) || (Web.g_selectedGamepad g <? 0));
      [reflexivity|].
    destruct (Web.axes (Web.GetGamepadState b (Web.g_selectedGamepad g)));
      destruct (Web.buttons (Web.GetGamepadState b (Web.g_selectedGamepad g)));
      reflexivity.
Qed.

(** X13.  Only two calls change the streaming flag: [StopStreaming] clears
    it and an accepted [StartStreaming] sets it.  So once streaming, the
    program keeps streaming through any calls other than [StopStreaming],
    whatever the browser reports in between (a gamepad that has gone, a
    rejected start); and while not streaming it stays so until a start is
    accepted.  A call sequence that ends in [StopStreaming] leaves the flag
    clear and the selection at -1. *)
Theorem streaming_flag_changes (double : Type) (axis_to_string : double -> string)
    (calls : list (@Web.Call double)) (g : Web.Globals) :
  let g' := fold_left (Web.call axis_to_string) calls g in
  (forallb (fun c => negb (is_stop c)) calls = true ->
   Web.g_streaming g = true -> Web.g_streaming g' = true)
  /\ (forallb (fun c => negb (accepted_start c)) calls = true ->
      Web.g_streaming g = false -> Web.g_streaming g' = false)
  /\ (Web.g_streaming g' <> Web.g_streaming g ->
      existsb is_stop calls = true \/ existsb accepted_start calls = true)
  /\ (let g'' := Web.call axis_to_string g' Web.CallStopStreaming in
      Web.g_streaming g'' = false /\ Web.g_selectedGamepad g'' = -1).
Proof.
  intros g'. unfold g'. clear g'.
  split; [|split; [|split; [|split; reflexivity]]].
  - revert g. induction calls as [|c calls IH]; intros g Hc Hg; simpl in *;
      [exact Hg|].
    apply andb_true_iff in Hc as [Hc1 Hc2]. apply IH; [exact Hc2|].
    rewrite call_streaming. destruct (is_stop c); [discriminate|].
    now destruct (accepted_start c).
  - revert g. induction calls as [|c calls IH]; intros g Hc Hg; simpl in *;
      [exact Hg|].
    apply andb_true_iff in Hc as [Hc1 Hc2]. apply IH; [exact Hc2|].
    rewrite call_streaming. destruct (accepted_start c); [discriminate|].
    now destruct (is_stop c).
  - revert g. induction calls as [|c calls IH]; intros g Hg; simpl in *;
      [congruence|].
    destruct (is_stop c) eqn:Es; [now left|].
    destruct (accepted_start c) eqn:Ea; [now right|]. simpl.
    apply (IH (Web.call axis_to_string g c)).
    rewrite (call_streaming axis_to_string g c), Es, Ea. exact Hg.
Qed.

(** ** The browser surface: the state read *)



